(** * go-bbhw: GPIO pins through sysfs, and fake pins for testing

    A shallow embedding of [gpio_fake.go] and [gpio_sysfs.go].

    - [Go]    : what both files share (the [error] values, a state monad
                with panics).
    - [Fake]  : [FakeGPIO], the in-memory pins that can be wired together.
    - [Sysfs] : [SysfsGPIO], the pins behind /sys/class/gpio, and the
                polling loop started by [SetEdgeCallback]. *)

From Stdlib Require Import Ascii.
From stdpp Require Import gmap strings list pretty.

Open Scope string_scope.
Open Scope Z_scope.

(* ===================================================================== *)
(** ** What the two files share *)
(* ===================================================================== *)

Module Go.

(** Go's [error] values, as far as the code tells them apart:
    [os.IsNotExist] recognises [ENOENT], a read at end of file gives
    [EOF], [errors.New] and [fmt.Errorf] give [ErrorsNew], every other
    failure of a system call is an [Errno]. A returned [error] is an
    [option error], [None] being Go's [nil]. *)
Inductive error : Type :=
| ENOENT
| EOF
| Errno (code : N)
| ErrorsNew (msg : string).

Definition os_IsNotExist (e : error) : bool :=
  match e with ENOENT => true | _ => false end.

(** A call either returns (a value and the state it leaves), or panics
    (with the state reached when the panic started: Go keeps the writes
    made before it), or is [Pending]: it has not come back, because it
    waits for ever or because the loop it is in was followed for a
    bounded number of rounds only (with the state reached so far), or is
    [Stuck]: it followed a reference to an object that the modelled state
    does not hold, which Go's memory safety rules out. *)
Inductive outcome (S A : Type) : Type :=
| Ret (a : A) (s : S)
| Panicked (msg : string) (s : S)
| Pending (s : S)
| Stuck.
Arguments Ret {S A} a s.
Arguments Panicked {S A} msg s.
Arguments Pending {S A} s.
Arguments Stuck {S A}.

Definition M (S A : Type) : Type := S → outcome S A.

Definition ret {S A} (a : A) : M S A := λ s, Ret a s.

Definition bind {S A B} (m : M S A) (k : A → M S B) : M S B :=
  λ s, match m s with
       | Ret a s' => k a s'
       | Panicked msg s' => Panicked msg s'
       | Pending s' => Pending s'
       | Stuck => Stuck
       end.

Definition panic {S A} (msg : string) : M S A := λ s, Panicked msg s.

(** [defer d] before [body]: [d] runs when [body] returns and when it
    panics, and not while [body] has not come back. *)
Definition defer {S A} (d : M S unit) (body : M S A) : M S A :=
  λ s, match body s with
       | Ret a s' =>
           match d s' with
           | Ret _ s'' => Ret a s''
           | Panicked msg s'' => Panicked msg s''
           | Pending s'' => Pending s''
           | Stuck => Stuck
           end
       | Panicked msg s' =>
           match d s' with
           | Ret _ s'' => Panicked msg s''
           | Panicked msg' s'' => Panicked msg' s''
           | Pending s'' => Pending s''
           | Stuck => Stuck
           end
       | Pending s' => Pending s'
       | Stuck => Stuck
       end.

(** What the runtime panics with when a nil pointer is followed. *)
Definition nil_dereference : string :=
  "runtime error: invalid memory address or nil pointer dereference".

(** The constants [IN] and [OUT] of package [bbhw] are declared in a
    file that is not among the sources. The code only compares
    directions with them, so they are taken as parameters. *)
Class Directions : Type := { IN : Z; OUT : Z }.

(** Two distinct integers for the directions, for the examples. *)
Definition example_directions : Directions := {| IN := 0; OUT := 1 |}.

End Go.

Export Go.

Declare Scope go_scope.
Delimit Scope go_scope with go.
Notation "'let*' x ':=' m 'in' k" := (bind m (λ x, k))
  (at level 10, x name, m at level 100, k at level 200) : go_scope.
Notation "m >> k" := (bind m (λ _, k))
  (at level 100, k at level 200, right associativity) : go_scope.

(* ===================================================================== *)
(** ** gpio_fake.go *)
(* ===================================================================== *)

Module Fake.

(** A [*FakeGPIO] is [nil] or the address of a pin. *)
Abbreviation loc := nat (only parsing).
Abbreviation ptr := (option nat) (only parsing).

(** A [*log.Logger]: the package's [FakeGPIODefaultLogTarget_] (which
    writes to a [FakeGPIONullWriter]) or a logger of the caller's. *)
Inductive logger : Type :=
| FakeGPIODefaultLogTarget_
| Logger (id : nat).

(** The struct. [connectedTo] is a slice: [None] is the nil slice,
    [Some l] a slice of length [length l]. No method of the file writes
    to an element of a slice, so a slice is modelled by its contents. *)
Record FakeGPIO : Type := mkFakeGPIO {
  name : string;
  dir : Z;
  value : bool;
  logTarget : option logger;
  connectedTo : option (list ptr)
}.

Definition with_dir (g : FakeGPIO) (d : Z) : FakeGPIO :=
  mkFakeGPIO (name g) d (value g) (logTarget g) (connectedTo g).
Definition with_value (g : FakeGPIO) (v : bool) : FakeGPIO :=
  mkFakeGPIO (name g) (dir g) v (logTarget g) (connectedTo g).
Definition with_connectedTo (g : FakeGPIO) (c : option (list ptr)) : FakeGPIO :=
  mkFakeGPIO (name g) (dir g) (value g) (logTarget g) c.

(** One call of [Printf] on a logger: the logger, the format string and
    the arguments. The rendering of the line is [log.Logger]'s. *)
Inductive arg : Type :=
| AStr (s : string)
| ABool (b : bool).

Record printf_call : Type := mkPrintf {
  printf_logger : logger;
  printf_format : string;
  printf_args : list arg
}.

(** The state the methods run in: the pins that exist, and the calls
    made to loggers so far (oldest first). *)
Record world : Type := mkWorld {
  heap : gmap loc FakeGPIO;
  logged : list printf_call
}.

Definition deref (p : loc) : M world FakeGPIO :=
  λ w, match heap w !! p with
       | Some g => Ret g w
       | None => Stuck
       end.

Definition assign (p : loc) (f : FakeGPIO → FakeGPIO) : M world unit :=
  λ w, match heap w !! p with
       | Some g => Ret tt (mkWorld (<[p := f g]> (heap w)) (logged w))
       | None => Stuck
       end.

Definition Printf (l : logger) (format : string) (args : list arg) : M world unit :=
  λ w, Ret tt (mkWorld (heap w) (logged w ++ [mkPrintf l format args])).

Local Open Scope go_scope.

Section Methods.

Context `{D : Directions}.

(** [func (gpio *FakeGPIO) log(fmt string, attr ...interface{})] *)
Definition log (p : loc) (fmt : string) (attr : list arg) : M world unit :=
  let* g := deref p in
  let logT := match logTarget g with
              | None => FakeGPIODefaultLogTarget_
              | Some l => l
              end in
  let dir := if dir g =? OUT then "OUT" else "IN" in
  Printf logT ("FakeGPIO %s(%s): " +:+ fmt) ([AStr (name g); AStr dir] ++ attr).

(** [func NewFakeNamedGPIO(name string, direction int, logTarget *log.Logger)] *)
Definition NewFakeNamedGPIO (name : string) (direction : Z)
    (logTarget : option logger) : M world ptr :=
  λ w, let p := fresh (dom (heap w)) in
       Ret (Some p)
           (mkWorld (<[p := mkFakeGPIO name direction false logTarget None]> (heap w))
                    (logged w)).

(** [func NewFakeGPIO(gpionum uint, direction int)] *)
Definition NewFakeGPIO (gpionum : N) (direction : Z) : M world ptr :=
  NewFakeNamedGPIO ("FakeGPIO(" +:+ pretty gpionum +:+ ")") direction None.

(** [func (gpio *FakeGPIO) CheckDirection() (direction int, err error)] *)
Definition CheckDirection (gpio : ptr) : M world (Z * option error) :=
  match gpio with
  | None => panic nil_dereference
  | Some p => let* g := deref p in ret (dir g, None)
  end.

(** [func (gpio *FakeGPIO) SetDirection(direction int) error] *)
Definition SetDirection (gpio : ptr) (direction : Z) : M world (option error) :=
  if negb ((direction =? IN) || (direction =? OUT)) then
    panic "direction neither IN nor OUT"
  else
    match gpio with
    | None => panic nil_dereference
    | Some p => assign p (λ g, with_dir g direction) >> ret None
    end.

(** [func (gpio *FakeGPIO) GetState() (state bool, err error)] *)
Definition GetState (gpio : ptr) : M world (bool * option error) :=
  match gpio with
  | None => panic nil_dereference
  | Some p => let* g := deref p in ret (value g, None)
  end.

(** [func (gpio *FakeGPIO) FakeInput(state bool) error] *)
Definition FakeInput (gpio : ptr) (state : bool) : M world (option error) :=
  match gpio with
  | None => panic "gpio == nil"
  | Some p =>
      let* g := deref p in
      (if dir g =? IN then
         log p "faking input >%+v<" [ABool state] >>
         assign p (λ g, with_value g state)
       else
         panic "tried to fake input for output gpio") >>
      ret None
  end.

(** The loop of [SetState]:
    [for _, othergpio := range gpio.connectedTo]. *)
Fixpoint SetState_range (conn : list ptr) (state : bool) : M world unit :=
  match conn with
  | [] => ret tt
  | othergpio :: rest =>
      match othergpio with
      | None => SetState_range rest state
      | Some _ => FakeInput othergpio state >> SetState_range rest state
      end
  end.

(** [func (gpio *FakeGPIO) SetState(state bool) error] *)
Definition SetState (gpio : ptr) (state : bool) : M world (option error) :=
  match gpio with
  | None => panic "gpio == nil"
  | Some p =>
      let* g := deref p in
      (if dir g =? OUT then
         log p "set to state >%+v<" [ABool state] >>
         assign p (λ g, with_value g state) >>
         let* g := deref p in
         match connectedTo g with
         | None => ret tt
         | Some conn => SetState_range conn state
         end
       else
         panic "tried to set state on IN gpio") >>
      ret None
  end.

(** [func (gpio *FakeGPIO) Close()]: the assignment [gpio = nil] is to
    the method's own copy of the receiver. *)
Definition Close (gpio : ptr) : M world unit :=
  let gpio : ptr := None in
  ret tt.

(** The loop of [ConnectTo], which collects the names for the log
    line. *)
Fixpoint ConnectTo_range (conn : list ptr) (gpionames : string) : M world string :=
  match conn with
  | [] => ret gpionames
  | othergpio :: rest =>
      match othergpio with
      | None => ConnectTo_range rest gpionames
      | Some q =>
          let* o := deref q in
          let dir := if dir o =? OUT then "OUT" else "IN" in
          ConnectTo_range rest (gpionames +:+ " " +:+ name o +:+ "(" +:+ dir +:+ ")")
      end
  end.

(** [func (gpio *FakeGPIO) ConnectTo(conn ...*FakeGPIO)] *)
Definition ConnectTo (gpio : ptr) (conn : option (list ptr)) : M world unit :=
  match gpio with
  | None => panic nil_dereference
  | Some p =>
      assign p (λ g, with_connectedTo g conn) >>
      let* g := deref p in
      match connectedTo g with
      | None => ret tt
      | Some conn =>
          let* gpionames := ConnectTo_range conn "" in
          log p ("now connected to" +:+ gpionames) []
      end
  end.

End Methods.

(* ------------------------------------------------------------------- *)
(** *** Vocabulary for the properties *)
(* ------------------------------------------------------------------- *)

Section Vocabulary.

Context `{D : Directions}.

(** [set_value v] is the assignment [gpio.value = v]. *)
Definition set_value (v : bool) (g : FakeGPIO) : FakeGPIO := with_value g v.

(** The pins a pin is wired to: none for the nil slice. *)
Definition targets (g : FakeGPIO) : list ptr := default [] (connectedTo g).

(** [drives X v h h']: from heap [h] to heap [h'], the pins in [X] had
    their value set to [v] and nothing else changed. *)
Definition drives (X : loc → Prop) (v : bool) (h h' : gmap loc FakeGPIO) : Prop :=
  ∀ x, (X x → h' !! x = set_value v <$> h !! x) ∧ (¬ X x → h' !! x = h !! x).

(** Every pin of the list that is not nil exists and is an input. *)
Definition inputs (w : world) (conn : list ptr) : Prop :=
  ∀ q, Some q ∈ conn → ∃ g, heap w !! q = Some g ∧ dir g = IN.

(** Every pin of the list that is not nil exists. *)
Definition allocated (w : world) (conn : list ptr) : Prop :=
  ∀ q, Some q ∈ conn → is_Some (heap w !! q).

(** [p] is an output wired to [conn], all of them inputs. *)
Definition wired (w : world) (p : loc) (conn : list ptr) : Prop :=
  ∃ g, heap w !! p = Some g ∧ dir g = OUT ∧ targets g = conn ∧ inputs w conn.

(** What a constructor's result [r], computed in world [w], is when the
    new pin is low and unwired: a pin at an address that was free, every
    older pin as it was, the new pin's value false and its [connectedTo]
    nil, and [GetState] on it reading false. *)
Definition starts_low_and_unwired (w : world) (r : outcome world ptr) : Prop :=
  ∃ p w', r = Ret (Some p) w'
          ∧ heap w !! p = None
          ∧ (∀ x, x ≠ p → heap w' !! x = heap w !! x)
          ∧ (∃ g, heap w' !! p = Some g ∧ value g = false ∧ connectedTo g = None)
          ∧ GetState (Some p) w' = Ret (false, None) w'.

(** Driving the pin that [r] constructs to [v] returns, the pin then
    reads [v], and every other pin is as it was in [w]. *)
Definition drive_reaches_nobody (v : bool) (w : world) (r : outcome world ptr) : Prop :=
  ∃ p w' w'', r = Ret (Some p) w'
              ∧ SetState (Some p) v w' = Ret None w''
              ∧ GetState (Some p) w'' = Ret (v, None) w''
              ∧ ∀ x, x ≠ p → heap w'' !! x = heap w !! x.

End Vocabulary.

(* ------------------------------------------------------------------- *)
(** *** A test bench for the examples *)
(* ------------------------------------------------------------------- *)

Definition pin (name : string) (direction : Z) (conn : option (list ptr)) : FakeGPIO :=
  mkFakeGPIO name direction false None conn.

(** Pin 0 is an output, pins 1 and 2 are inputs, pin 3 is an output;
    nothing is wired. *)
Definition bench : world :=
  mkWorld (list_to_map [(0%nat, pin "p" 1 None); (1%nat, pin "a" 0 None);
                        (2%nat, pin "b" 0 None); (3%nat, pin "q" 1 None)]) [].

(** Output 0 is wired to input 1, which is itself wired on to input 2
    and to output 3. *)
Definition relay_bench : world :=
  mkWorld (list_to_map [(0%nat, pin "p" 1 (Some [Some 1%nat]));
                        (1%nat, pin "t" 0 (Some [Some 2%nat; Some 3%nat]));
                        (2%nat, pin "u" 0 None); (3%nat, pin "q" 1 None)]) [].

End Fake.

(* ===================================================================== *)
(** ** gpio_sysfs.go *)
(* ===================================================================== *)

Module Sysfs.

(** An [*os.File] that is not nil: the name it was opened with and its
    descriptor. *)
Record File : Type := mkFile { Name : string; Fd : Z }.

Inductive open_flag : Type := O_RDONLY | O_WRONLY | O_RDWR | O_SYNC.

(** [unix.PollFd], without the [Revents] that the code does not read. *)
Record PollFd : Type := mkPollFd { pfd_Fd : Z; pfd_Events : Z }.

Definition POLLPRI : Z := 2.

(** The conversion [int32(x)] of an unsigned value. *)
Definition int32 (x : Z) : Z := (x + 2 ^ 31) `mod` 2 ^ 32 - 2 ^ 31.

(** The calls that leave the program, each with the type of what comes
    back: [os.Stat] (the error), [os.OpenFile] (descriptor and error),
    [Seek] (offset and error), the read system call (the bytes read and
    the error), a write (count and error), [Close], and [unix.Poll]
    (the number of ready descriptors, 0 after a timeout, and the error). *)
Inductive syscall : Type → Type :=
| Stat (name : string) : syscall (option error)
| OpenFile (name : string) (flag : list open_flag) (perm : Z) : syscall (Z * option error)
| Seek (f : File) (offset whence : Z) : syscall (Z * option error)
| Read (f : File) (len : nat) : syscall (string * option error)
| Write (f : File) (data : string) : syscall (Z * option error)
| CloseFile (f : File) : syscall (option error)
| Poll (fds : list PollFd) (timeout : Z) : syscall (Z * option error).

(** The kernel answers each call from its state [K] and moves to a new
    state. Nothing is assumed about the answers. *)
Class Kernel (K : Type) : Type := { sys : ∀ R : Type, syscall R → K → R * K }.
Arguments sys {K _ R} c k.

(** A call together with its answer. *)
Inductive event : Type :=
| Event (R : Type) (c : syscall R) (r : R).
Arguments Event {R} c r.

(** A [chan bool] value: the nil channel or a channel made by [make]. *)
Inductive chan : Type := NilChan | Chan (id : nat).

(** What has been sent on a channel and received by its reader, oldest
    first, and whether the channel has been closed. *)
Record stream : Type := mkStream { delivered : list bool; closed : bool }.

(** [type SysfsGPIO struct]. [fd] is [None] for a nil [*os.File]. *)
Record SysfsGPIO : Type := mkSysfsGPIO { Number : N; fd : option File }.

(** A goroutine started by [SetEdgeCallback]: what its function literal
    captured. Its body is [monitor] below. *)
Record task : Type := mkTask {
  task_gpio : SysfsGPIO;
  task_callback : option chan;
  task_timeout : Z
}.

Section Kernel.

Context {K : Type} `{Kernel K}.

(** The state the methods run in: the kernel, the calls made so far with
    their answers, the channels, and the goroutines started. *)
Record world : Type := mkWorld {
  kernel : K;
  calls : list event;
  streams : gmap nat stream;
  spawned : list task
}.

Local Open Scope go_scope.

Definition call {R : Type} (c : syscall R) : M world R :=
  λ w, let (r, k) := sys c (kernel w) in
       Ret r (mkWorld k (calls w ++ [Event c r]) (streams w) (spawned w)).

(** [os.Stat], of which the code uses the error only. *)
Definition os_Stat (name : string) : M world (option error) := call (Stat name).

(** [os.OpenFile]: a file, or nil and an error. *)
Definition os_OpenFile (name : string) (flag : list open_flag) (perm : Z)
    : M world (option File * option error) :=
  let* r := call (OpenFile name flag perm) in
  match r with
  | (fd, None) => ret (Some (mkFile name fd), None)
  | (_, Some e) => ret (None, Some e)
  end.

(** [n] zero bytes. *)
Fixpoint zeros (n : nat) : string :=
  match n with
  | O => ""
  | S n => String Ascii.zero (zeros n)
  end.

(** [os.ErrInvalid], which the methods of a nil [*os.File] return. *)
Definition ErrInvalid : error := ErrorsNew "invalid argument".

(** [n, err = f.Read(buf)] on a fresh [buf := make([]byte, len)]: the
    buffer afterwards, [n] and [err]. At most [len] bytes are taken, the
    rest of the buffer stays zero; [os.File.Read] turns a read of no byte
    without error into [io.EOF], and returns no byte with an error. *)
Definition File_Read (f : option File) (len : nat) : M world (string * Z * option error) :=
  match f with
  | None => ret (zeros len, 0, Some ErrInvalid)
  | Some f =>
      let* r := call (Read f len) in
      let data := String.substring 0 len (fst r) in
      let n := String.length data in
      let buf := data +:+ zeros (len - n) in
      match snd r with
      | None => if (n =? 0)%nat then ret (buf, 0, Some EOF) else ret (buf, Z.of_nat n, None)
      | Some e => ret (zeros len, 0, Some e)
      end
  end.

Definition File_Seek (f : option File) (offset whence : Z) : M world (Z * option error) :=
  match f with
  | None => ret (0, Some ErrInvalid)
  | Some f => call (Seek f offset whence)
  end.

Definition File_Close (f : option File) : M world (option error) :=
  match f with
  | None => ret (Some ErrInvalid)
  | Some f => call (CloseFile f)
  end.

(** [f.Fd()]: all ones for a nil file. *)
Definition File_Fd (f : option File) : Z :=
  match f with
  | None => 2 ^ 64 - 1
  | Some f => Fd f
  end.

(** [fmt.Fprintf(fd, ...)], given the formatted text: one write. *)
Definition fmt_Fprintf (f : option File) (text : string) : M world (Z * option error) :=
  match f with
  | None => ret (0, Some ErrInvalid)
  | Some f => call (Write f text)
  end.

Definition unix_Poll (fds : list PollFd) (timeout : Z) : M world (Z * option error) :=
  call (Poll fds timeout).

(** The permission argument [0666] of the calls to [os.OpenFile]. *)
Definition perm_0666 : Z := 438.

(** [string([]byte{10})], the newline of the format strings. *)
Definition newline : string := String (Ascii.ascii_of_nat 10) "".

(** [func (gpio *SysfsGPIO) enable_export() error] *)
Definition enable_export (gpio : option SysfsGPIO) : M world (option error) :=
  match gpio with
  | None => panic "gpio == nil"
  | Some g =>
      let* err := os_Stat ("/sys/class/gpio/gpio" +:+ pretty (Number g)) in
      match err with
      | None =>
          (* already exported *)
          ret None
      | Some e =>
          if negb (os_IsNotExist e) then
            (* some other error *)
            ret (Some e)
          else
            let* r := os_OpenFile "/sys/class/gpio/export" [O_WRONLY; O_SYNC] perm_0666 in
            match r with
            | (_, Some e) => ret (Some e)
            | (fd, None) =>
                let* r := fmt_Fprintf fd (pretty (Number g) +:+ newline) in
                ret (snd r)
            end
      end
  end.

(** [string(buf)[0:n] == s] *)
Definition has_prefix (buf : string) (n : nat) (s : string) : bool :=
  String.eqb (String.substring 0 n buf) s.

(** [func (gpio *SysfsGPIO) CheckDirection() (direction int, err error)],
    with the constants [IN] and [OUT] of the package as for the fake
    pins. *)
Definition CheckDirection `{D : Directions} (gpio : option SysfsGPIO)
    : M world (Z * option error) :=
  let direction := -1 in
  match gpio with
  | None => panic "gpio == nil"
  | Some g =>
      let filename := "/sys/class/gpio/gpio" +:+ pretty (Number g) +:+ "/direction" in
      let* r := os_OpenFile filename [O_RDONLY; O_SYNC] perm_0666 in
      match r with
      | (_, Some e) => ret (direction, Some e)
      | (df, None) =>
          defer (File_Close df >> ret tt)
            (File_Seek df 0 0 >>
             let* r := File_Read df 16 in
             let '(buf, n, err) := r in
             match err with
             | Some e => ret (direction, Some e)
             | None =>
                 if n =? 0 then ret (direction, Some (ErrorsNew "wtf ?"))
                 else if has_prefix buf 2 "in" then ret (IN, None)
                 else if has_prefix buf 3 "out" then ret (OUT, None)
                 else ret (direction,
                           Some (ErrorsNew ("direction '" +:+ buf +:+ "' is neither in nor out !!!")))
             end)
      end
  end.

(** [func (gpio *SysfsGPIO) GetEdge() (edge string, err error)]. When
    [n == 0] the error is set and the function goes on. *)
Definition GetEdge (gpio : option SysfsGPIO) : M world (string * option error) :=
  let edge := "" in
  match gpio with
  | None => panic "gpio == nil"
  | Some g =>
      let filename := "/sys/class/gpio/gpio" +:+ pretty (Number g) +:+ "/edge" in
      let* r := os_OpenFile filename [O_RDONLY; O_SYNC] perm_0666 in
      match r with
      | (_, Some e) => ret (edge, Some e)
      | (df, None) =>
          defer (File_Close df >> ret tt)
            (File_Seek df 0 0 >>
             let* r := File_Read df 16 in
             let '(buf, n, err) := r in
             match err with
             | Some e => ret (edge, Some e)
             | None =>
                 let err := if n =? 0 then Some (ErrorsNew "Edge file is empty") else None in
                 if has_prefix buf 4 "none" then ret ("none", err)
                 else if has_prefix buf 4 "both" then ret ("both", err)
                 else if has_prefix buf 6 "rising" then ret ("rising", err)
                 else if has_prefix buf 7 "falling" then ret ("falling", err)
                 else ret (edge, Some (ErrorsNew "Invalid edge state"))
             end)
      end
  end.

(** [func (gpio *SysfsGPIO) SetDirection(direction int) error]. The
    result of [fmt.Fprintln] is dropped. *)
Definition SetDirection `{D : Directions} (gpio : option SysfsGPIO) (direction : Z)
    : M world (option error) :=
  match gpio with
  | None => panic "gpio == nil"
  | Some g =>
      let* r := os_OpenFile ("/sys/class/gpio/gpio" +:+ pretty (Number g) +:+ "/direction")
                            [O_WRONLY; O_SYNC] perm_0666 in
      match r with
      | (_, Some e) => ret (Some e)
      | (df, None) =>
          defer (File_Close df >> ret tt)
            ((if direction =? OUT then fmt_Fprintf df ("out" +:+ newline)
              else fmt_Fprintf df ("in" +:+ newline)) >>
             ret None)
      end
  end.

(** [func NewSysfsGPIO(number uint, direction int) (gpio *SysfsGPIO, err error)] *)
Definition NewSysfsGPIO `{D : Directions} (number : N) (direction : Z)
    : M world (option SysfsGPIO * option error) :=
  let gpio := mkSysfsGPIO number None in
  let* err := enable_export (Some gpio) in
  match err with
  | Some e => ret (None, Some e)
  | None =>
      let* err := SetDirection (Some gpio) direction in
      match err with
      | Some e => ret (None, Some e)
      | None =>
          (* check if file really exists and open for OUT *)
          let* r := os_OpenFile ("/sys/class/gpio/gpio" +:+ pretty number +:+ "/value")
                                [O_RDWR; O_SYNC] perm_0666 in
          match r with
          | (_, Some e) => ret (None, Some e)
          | (fd, None) => ret (Some (mkSysfsGPIO number fd), None)
          end
      end
  end.

(** [func (gpio *SysfsGPIO) GetState() (state bool, err error)] *)
Definition GetState (gpio : option SysfsGPIO) : M world (bool * option error) :=
  match gpio with
  | None => panic "gpio == nil"
  | Some g =>
      match fd g with
      | None => panic "gpio.fd == nil"
      | Some _ =>
          File_Seek (fd g) 0 0 >>
          let* r := File_Read (fd g) 16 in
          let '(buf, n, err) := r in
          match err with
          | Some e => ret (false, Some e)
          | None =>
              if negb (n =? 2) then ret (false, Some (ErrorsNew "wtf ?"))
              else if bool_decide (String.get 0 buf = Some "1"%char) then ret (true, None)
              else ret (false, None)
          end
      end
  end.

(** [*callback <- state]. The nil channel never takes a value; a send on
    a closed channel panics; on an open channel the value goes to the
    reader, who is taken to receive what is sent. *)
Definition send (callback : option chan) (state : bool) : M world unit :=
  match callback with
  | None => panic nil_dereference
  | Some NilChan => λ w, Pending w
  | Some (Chan id) =>
      λ w, match streams w !! id with
           | None => Stuck
           | Some st =>
               if closed st then Panicked "send on closed channel" w
               else Ret tt (mkWorld (kernel w) (calls w)
                              (<[id := mkStream (delivered st ++ [state]) false]> (streams w))
                              (spawned w))
           end
  end.

(** [close(c)] *)
Definition close (c : chan) : M world unit :=
  match c with
  | NilChan => panic "close of nil channel"
  | Chan id =>
      λ w, match streams w !! id with
           | None => Stuck
           | Some st =>
               if closed st then Panicked "close of closed channel" w
               else Ret tt (mkWorld (kernel w) (calls w)
                              (<[id := mkStream (delivered st) true]> (streams w))
                              (spawned w))
           end
  end.

(** One round of the [for] loop in the goroutine of [SetEdgeCallback]:
    [true] to go round again, [false] for [break]. *)
Definition monitor_round (gpio : SysfsGPIO) (callback : option chan) (timeout : Z)
    : M world bool :=
  (* First do a dummy read before we poll *)
  GetState (Some gpio) >>
  let fds := [mkPollFd (int32 (File_Fd (fd gpio))) POLLPRI] in
  let* r := unix_Poll fds timeout in
  match snd r with
  | Some _ => ret false
  | None =>
      let* r := GetState (Some gpio) in
      let '(state, err) := r in
      match err with
      | Some _ => ret false
      | None => send callback state >> ret true
      end
  end.

(** The [for] loop, followed for at most [rounds] rounds. *)
Fixpoint monitor_loop (rounds : nat) (gpio : SysfsGPIO) (callback : option chan)
    (timeout : Z) : M world unit :=
  match rounds with
  | O => λ w, Pending w
  | S rounds =>
      let* again := monitor_round gpio callback timeout in
      if again then monitor_loop rounds gpio callback timeout else ret tt
  end.

(** The function literal that [SetEdgeCallback] starts as a goroutine.
    [defer close( *callback)] evaluates [*callback] when the [defer]
    statement runs. *)
Definition monitor (rounds : nat) (gpio : SysfsGPIO) (callback : option chan)
    (timeout : Z) : M world unit :=
  match callback with
  | None => panic nil_dereference
  | Some c => defer (close c) (monitor_loop rounds gpio callback timeout)
  end.

(** The [go] statement: the goroutine is recorded, its body is
    [monitor]. *)
Definition go (t : task) : M world unit :=
  λ w, Ret tt (mkWorld (kernel w) (calls w) (streams w) (spawned w ++ [t])).

(** [func (gpio *SysfsGPIO) SetEdgeCallback(callback *chan bool, timeout int) error] *)
Definition SetEdgeCallback (gpio : option SysfsGPIO) (callback : option chan)
    (timeout : Z) : M world (option error) :=
  match gpio with
  | None => panic "gpio == nil"
  | Some g =>
      let* r := GetEdge gpio in
      let '(edge, err) := r in
      match err with
      | Some e => ret (Some e)
      | None =>
          if String.eqb edge "none" then
            ret (Some (ErrorsNew "Edge value is set to NONE"))
          else
            go (mkTask g callback timeout) >>
            ret None
      end
  end.

End Kernel.

Arguments world : clear implicits.

(* --------------------------------------------------------------------- *)
(** *** Vocabulary for the properties *)
(* --------------------------------------------------------------------- *)

(** The writes among the calls made: the name of the file and the text. *)
Definition written (ev : event) : option (string * string) :=
  match ev with
  | Event c _ =>
      match c with
      | Write f data => Some (Name f, data)
      | _ => None
      end
  end.

Definition writes (tr : list event) : list (string * string) := omap written tr.

(** The answer to the read of the value file makes [GetState] return an
    error: the read failed, or it did not give two bytes. *)
Definition read_fails (r : string * option error) : Prop :=
  is_Some (snd r) ∨ String.length (String.substring 0 16 (fst r)) ≠ 2%nat.


(** [quiet m]: the computation returns, and has touched neither the
    channels nor the goroutines. *)
Definition quiet {K A} (m : M (world K) A) : Prop :=
  ∀ w, ∃ a w', m w = Ret a w' ∧ streams w' = streams w ∧ spawned w' = spawned w.


(* --------------------------------------------------------------------- *)
(** *** A kernel for the examples *)
(* --------------------------------------------------------------------- *)

(** A control file system that does not change: its directories, and its
    files with what reading each gives. *)
Record tree : Type := mkTree {
  dirs : list string;
  files : list (string * string)
}.

Definition file_data (t : tree) (name : string) : option string :=
  (λ r, snd (snd r)) <$> list_find (λ e, fst e = name) (files t).

Definition exists_in (t : tree) (name : string) : bool :=
  bool_decide (name ∈ dirs t) || bool_decide (is_Some (file_data t name)).

(** Every file can be opened (as descriptor 3), read and written; a
    name that is not in the tree does not exist; reading a file that has
    gone fails with [ENODEV]; [Poll] always times out. *)
#[export] Instance tree_kernel : Kernel tree := {|
  sys R c t :=
    match c in syscall R return R * tree with
    | Stat name => (if exists_in t name then None else Some ENOENT, t)
    | OpenFile name _ _ =>
        (if exists_in t name then (3, None) else (-1, Some ENOENT), t)
    | Seek _ offset _ => ((offset, None), t)
    | Read f _ =>
        (match file_data t (Name f) with
         | Some data => (data, None)
         | None => ("", Some (Errno 19))
         end, t)
    | Write _ data => ((Z.of_nat (String.length data), None), t)
    | CloseFile _ => (None, t)
    | Poll _ _ => ((0, None), t)
    end
|}.

(** Pin 7 is exported as an output whose edge mode is "rising" and whose
    value reads 1; pin 8 is exported with edge mode "none"; pin 9 is not
    exported. *)
Definition board : tree :=
  mkTree ["/sys/class/gpio"; "/sys/class/gpio/gpio7"; "/sys/class/gpio/gpio8"]
         [("/sys/class/gpio/export", "");
          ("/sys/class/gpio/gpio7/direction", "out" +:+ newline);
          ("/sys/class/gpio/gpio7/edge", "rising" +:+ newline);
          ("/sys/class/gpio/gpio7/value", "1" +:+ newline);
          ("/sys/class/gpio/gpio8/direction", "in" +:+ newline);
          ("/sys/class/gpio/gpio8/edge", "none" +:+ newline);
          ("/sys/class/gpio/gpio8/value", "0" +:+ newline)].

(** The same board after the control files of pin 7 have gone. *)
Definition board_without_7 : tree :=
  mkTree ["/sys/class/gpio"; "/sys/class/gpio/gpio8"]
         [("/sys/class/gpio/export", "");
          ("/sys/class/gpio/gpio8/direction", "in" +:+ newline);
          ("/sys/class/gpio/gpio8/edge", "none" +:+ newline);
          ("/sys/class/gpio/gpio8/value", "0" +:+ newline)].

(** A world on a tree: no call made yet, channel 0 open and empty, no
    goroutine. *)
Definition boot (t : tree) : world tree :=
  mkWorld t [] {[ 0%nat := mkStream [] false ]} [].

(** The handle that [NewSysfsGPIO] makes for an exported pin of the
    board. *)
Definition handle (number : N) : SysfsGPIO :=
  mkSysfsGPIO number
    (Some (mkFile ("/sys/class/gpio/gpio" +:+ pretty number +:+ "/value") 3)).

End Sysfs.

(* ===================================================================== *)
(** ** gpio_fake.go: more vocabulary *)
(* ===================================================================== *)

Module FakeRest.

Import Fake.

(** What a pin is apart from its value: name, direction, logger and
    wiring. *)
Definition skeleton (g : FakeGPIO) : string * Z * option logger * option (list (option nat)) :=
  (name g, dir g, logTarget g, connectedTo g).

(** The state a call leaves, whether it returned or panicked. *)
Definition state_after {S A : Type} (r : outcome S A) : option S :=
  match r with
  | Ret _ s => Some s
  | Panicked _ s => Some s
  | Pending s => Some s
  | Stuck => None
  end.

(** The logger a pin writes to. *)
Definition logger_of (g : FakeGPIO) : logger :=
  default FakeGPIODefaultLogTarget_ (logTarget g).

(** Outputs 0 and 3 are both wired to input 1. *)
Definition shared_bench : world :=
  mkWorld (list_to_map [(0%nat, pin "p" 1 (Some [Some 1%nat]));
                        (1%nat, pin "a" 0 None);
                        (3%nat, pin "q" 1 (Some [Some 1%nat]))]) [].

(** Output 0 is wired to input 1, then to output 3, then to input 2. *)
Definition miswired_bench : world :=
  mkWorld (list_to_map [(0%nat, pin "p" 1 (Some [Some 1%nat; Some 3%nat; Some 2%nat]));
                        (1%nat, pin "a" 0 None);
                        (2%nat, pin "b" 0 None);
                        (3%nat, pin "q" 1 None)]) [].

End FakeRest.

(* ===================================================================== *)
(** ** gpio_sysfs.go: the other methods *)
(* ===================================================================== *)

Module SysfsRest.

Import Sysfs.

(** Constants for GPIO edge callbacks through sysfs:
    [const ( RISING = iota; FALLING; BOTH; NONE )]. *)
Definition RISING : Z := 0.
Definition FALLING : Z := 1.
Definition BOTH : Z := 2.
Definition NONE : Z := 3.

(** [f.Truncate(size)] is one more call that leaves the program. The
    kernel answers it from its state and moves to a new state; the record
    of calls in the world keeps the calls of [syscall] only. *)
Class Truncate (K : Type) : Type := { sys_truncate : File → Z → K → option error * K }.

Section Rest.

Context {K : Type} `{Kernel K} `{Truncate K}.

Local Open Scope go_scope.

Definition File_Truncate (f : option File) (size : Z) : M (world K) (option error) :=
  match f with
  | None => ret (Some ErrInvalid)
  | Some f =>
      λ w, let (r, k) := sys_truncate f size (kernel w) in
           Ret r (mkWorld k (calls w) (streams w) (spawned w))
  end.

(** [fmt.Fprintln(fd, text)]: the text and a newline, in one write. *)
Definition fmt_Fprintln (f : option File) (text : string) : M (world K) (Z * option error) :=
  fmt_Fprintf f (text +:+ newline).

(** [func (gpio *SysfsGPIO) ReOpen() (err error)]. The method assigns to
    [gpio.fd]: the handle after the call is returned beside the error. *)
Definition ReOpen (gpio : option SysfsGPIO) : M (world K) (option SysfsGPIO * option error) :=
  match gpio with
  | None => ret (None, Some (ErrorsNew "gpio is nil"))
  | Some g =>
      match fd g with
      | None => ret (Some g, Some (ErrorsNew "gpio is nil"))
      | Some f =>
          let prevfd := fd g in
          let* r := os_OpenFile (Name f) [O_RDWR; O_SYNC] perm_0666 in
          let g := mkSysfsGPIO (Number g) (fst r) in
          match snd r with
          | Some e => ret (Some g, Some e)
          | None => File_Close prevfd >> ret (Some g, None)
          end
      end
  end.

(** [func (gpio *SysfsGPIO) SetActiveLow(activelow bool) error] *)
Definition SetActiveLow (gpio : option SysfsGPIO) (activelow : bool)
    : M (world K) (option error) :=
  match gpio with
  | None => panic "gpio == nil"
  | Some g =>
      let* r := os_OpenFile ("/sys/class/gpio/gpio" +:+ pretty (Number g) +:+ "/active_low")
                            [O_WRONLY; O_SYNC] perm_0666 in
      match r with
      | (_, Some e) => ret (Some e)
      | (df, None) =>
          defer (File_Close df >> ret tt)
            ((if activelow then fmt_Fprintln df "1" else fmt_Fprintln df "0") >>
             ret None)
      end
  end.

(** [func (gpio *SysfsGPIO) SetEdge(edge int) error] *)
Definition SetEdge (gpio : option SysfsGPIO) (edge : Z) : M (world K) (option error) :=
  match gpio with
  | None => panic "gpio == nil"
  | Some g =>
      let* r := os_OpenFile ("/sys/class/gpio/gpio" +:+ pretty (Number g) +:+ "/edge")
                            [O_WRONLY; O_SYNC] perm_0666 in
      match r with
      | (_, Some e) => ret (Some e)
      | (df, None) =>
          defer (File_Close df >> ret tt)
            (if edge =? RISING then fmt_Fprintln df "rising" >> ret None
             else if edge =? FALLING then fmt_Fprintln df "falling" >> ret None
             else if edge =? BOTH then fmt_Fprintln df "both" >> ret None
             else if edge =? NONE then fmt_Fprintln df "none" >> ret None
             else ret (Some (ErrorsNew "Edge value invalid")))
      end
  end.

(** [func (gpio *SysfsGPIO) SetState(state bool) error] *)
Definition SetState (gpio : option SysfsGPIO) (state : bool) : M (world K) (option error) :=
  match gpio with
  | None => panic "gpio == nil"
  | Some g =>
      match fd g with
      | None => panic "gpio == nil"
      | Some _ =>
          let v := if state then "1" else "0" in
          File_Truncate (fd g) 0 >>
          let* r := fmt_Fprintln (fd g) v in
          ret (snd r)
      end
  end.

(** [func (gpio *SysfsGPIO) SetStateNow(state bool) error] *)
Definition SetStateNow (gpio : option SysfsGPIO) (state : bool) : M (world K) (option error) :=
  SetState gpio state.

End Rest.

(* --------------------------------------------------------------------- *)
(** *** Vocabulary for the properties *)
(* --------------------------------------------------------------------- *)

(** [m], run in [w], returns [r] in [w'] after making the calls [evs],
    and has touched neither the channels nor the goroutines. *)
Definition runs {K A} (m : M (world K) A) (w : world K) (r : A) (evs : list event)
    (w' : world K) : Prop :=
  m w = Ret r w'
  ∧ calls w' = (calls w ++ evs)%list
  ∧ streams w' = streams w
  ∧ spawned w' = spawned w.

(** The files opened with success among the calls made. *)
Definition opened (ev : event) : option File :=
  match ev with
  | Event c r =>
      match c in syscall R return R → option File with
      | OpenFile name _ _ =>
          λ r, match snd r with
               | None => Some (mkFile name (fst r))
               | Some _ => None
               end
      | _ => λ _, None
      end r
  end.

Definition opens (tr : list event) : list File := omap opened tr.

(** The files closed among the calls made. *)
Definition closed_file (ev : event) : option File :=
  match ev with
  | Event c _ =>
      match c with
      | CloseFile f => Some f
      | _ => None
      end
  end.

Definition closes (tr : list event) : list File := omap closed_file tr.

(** The answers to the reads among the calls made. *)
Definition read_answer (ev : event) : option (string * option error) :=
  match ev with
  | Event c r =>
      match c in syscall R return R → option (string * option error) with
      | Read _ _ => λ r, Some r
      | _ => λ _, None
      end r
  end.

Definition reads (tr : list event) : list (string * option error) := omap read_answer tr.

(** The path of an attribute of a pin. *)
Definition attribute (g : SysfsGPIO) (name : string) : string :=
  "/sys/class/gpio/gpio" +:+ pretty (Number g) +:+ "/" +:+ name.

(** The calls of a method that writes one line to an attribute: the file
    could not be opened, that error is returned and nothing else was
    called; or the file was opened, the line written, the file closed,
    and nil returned, whatever the write and the close answered. *)
Definition line_written (path text : string) (r : option error) (evs : list event)
    : Prop :=
  (∃ fdn e, evs = [Event (OpenFile path [O_WRONLY; O_SYNC] perm_0666) (fdn, Some e)]
            ∧ r = Some e)
  ∨ (∃ fdn wa ca,
       evs = [Event (OpenFile path [O_WRONLY; O_SYNC] perm_0666) (fdn, None);
              Event (Write (mkFile path fdn) (text +:+ newline)) wa;
              Event (CloseFile (mkFile path fdn)) ca]
       ∧ r = None).

(** The words that the setters write. *)
Definition direction_word `{D : Directions} (direction : Z) : string :=
  if direction =? OUT then "out" else "in".

Definition active_low_word (activelow : bool) : string :=
  if activelow then "1" else "0".

Definition value_word (state : bool) : string :=
  if state then "1" else "0".

Definition edge_word (edge : Z) : option string :=
  if edge =? RISING then Some "rising"
  else if edge =? FALLING then Some "falling"
  else if edge =? BOTH then Some "both"
  else if edge =? NONE then Some "none"
  else None.

(** What [File_Read] returns for the answer [ra] of the kernel to a read
    of [len] bytes: the buffer, [n] and [err]. *)
Definition read_result (len : nat) (ra : string * option error)
    : string * Z * option error :=
  let data := String.substring 0 len (fst ra) in
  let n := String.length data in
  match snd ra with
  | None =>
      if (n =? 0)%nat then (data +:+ zeros (len - n), 0, Some EOF)
      else (data +:+ zeros (len - n), Z.of_nat n, None)
  | Some e => (zeros len, 0, Some e)
  end.

(** What [CheckDirection], [GetEdge] and [GetState] return for what
    their read returned. *)
Definition direction_of `{D : Directions} (b : string * Z * option error)
    : Z * option error :=
  let '(buf, n, err) := b in
  match err with
  | Some e => (-1, Some e)
  | None =>
      if n =? 0 then (-1, Some (ErrorsNew "wtf ?"))
      else if has_prefix buf 2 "in" then (IN, None)
      else if has_prefix buf 3 "out" then (OUT, None)
      else (-1, Some (ErrorsNew ("direction '" +:+ buf +:+ "' is neither in nor out !!!")))
  end.

Definition edge_of (b : string * Z * option error) : string * option error :=
  let '(buf, n, err) := b in
  match err with
  | Some e => ("", Some e)
  | None =>
      let err := if n =? 0 then Some (ErrorsNew "Edge file is empty") else None in
      if has_prefix buf 4 "none" then ("none", err)
      else if has_prefix buf 4 "both" then ("both", err)
      else if has_prefix buf 6 "rising" then ("rising", err)
      else if has_prefix buf 7 "falling" then ("falling", err)
      else ("", Some (ErrorsNew "Invalid edge state"))
  end.

Definition state_of (b : string * Z * option error) : bool * option error :=
  let '(buf, n, err) := b in
  match err with
  | Some e => (false, Some e)
  | None =>
      if negb (n =? 2) then (false, Some (ErrorsNew "wtf ?"))
      else if bool_decide (String.get 0 buf = Some "1"%char) then (true, None)
      else (false, None)
  end.

(** The calls of a method that reads an attribute: the file could not be
    opened; or it was opened, sought, read and closed. *)
Definition attribute_read (path : string) (evs : list event)
    (ra : option (string * option error)) : Prop :=
  match ra with
  | None =>
      ∃ fdn e, evs = [Event (OpenFile path [O_RDONLY; O_SYNC] perm_0666) (fdn, Some e)]
  | Some ra =>
      ∃ fdn sa ca,
        evs = [Event (OpenFile path [O_RDONLY; O_SYNC] perm_0666) (fdn, None);
               Event (Seek (mkFile path fdn) 0 0) sa;
               Event (Read (mkFile path fdn) 16) ra;
               Event (CloseFile (mkFile path fdn)) ca]
  end.

(** The calls of [enable_export] and its result: the directory was
    found; or [os.Stat] failed otherwise than by its absence; or the
    export file could not be opened; or the pin number was written. *)
Definition exporting (g : SysfsGPIO) (r : option error) (evs : list event) : Prop :=
  let dir := "/sys/class/gpio/gpio" +:+ pretty (Number g) in
  let export := "/sys/class/gpio/export" in
  (evs = [Event (Stat dir) None] ∧ r = None)
  ∨ (∃ e, evs = [Event (Stat dir) (Some e)] ∧ os_IsNotExist e = false ∧ r = Some e)
  ∨ (∃ e fdn eo,
       evs = [Event (Stat dir) (Some e);
              Event (OpenFile export [O_WRONLY; O_SYNC] perm_0666) (fdn, Some eo)]
       ∧ os_IsNotExist e = true ∧ r = Some eo)
  ∨ (∃ e fdn wa,
       evs = [Event (Stat dir) (Some e);
              Event (OpenFile export [O_WRONLY; O_SYNC] perm_0666) (fdn, None);
              Event (Write (mkFile export fdn) (pretty (Number g) +:+ newline)) wa]
       ∧ os_IsNotExist e = true ∧ r = snd wa).

(* --------------------------------------------------------------------- *)
(** *** The kernel of the examples, continued *)
(* --------------------------------------------------------------------- *)

(** The tree does not change: a truncation succeeds and leaves it. *)
#[export] Instance tree_truncate : Truncate tree := {|
  sys_truncate _ _ t := (None, t)
|}.

(** The board with channel 0 already closed. *)
Definition boot_closed (t : tree) : world tree :=
  mkWorld t [] {[ 0%nat := mkStream [] true ]} [].

(** A handle whose value file is nil, as [new(SysfsGPIO)] gives. *)
Definition bare_handle (number : N) : SysfsGPIO := mkSysfsGPIO number None.

End SysfsRest.

(* ===================================================================== *)
(** ** Properties of the fake pins *)
(* ===================================================================== *)

Module FakeFacts.

Import Fake.

Section Effects.

Context `{D : Directions}.

Lemma log_Ret p fmt attr w g :
  heap w !! p = Some g →
  ∃ line, log p fmt attr w = Ret tt (mkWorld (heap w) (logged w ++ [line])).
Proof.
  intros Hp. unfold log, bind, deref, Printf. rewrite Hp. eauto.
Qed.

Lemma FakeInput_input q v w g :
  heap w !! q = Some g → dir g = IN →
  ∃ line, FakeInput (Some q) v w
          = Ret None (mkWorld (<[q := set_value v g]> (heap w)) (logged w ++ [line])).
Proof.
  intros Hq Hd. unfold FakeInput, bind at 1 2, deref at 1. rewrite Hq, Hd, Z.eqb_refl.
  destruct (log_Ret q "faking input >%+v<" [ABool v] w g Hq) as [line Hl].
  exists line. unfold bind. rewrite Hl. unfold assign, ret. simpl. by rewrite Hq.
Qed.

Lemma FakeInput_not_input q v w g :
  heap w !! q = Some g → dir g ≠ IN →
  FakeInput (Some q) v w = Panicked "tried to fake input for output gpio" w.
Proof.
  intros Hq Hd. unfold FakeInput, bind, deref. rewrite Hq.
  by destruct (Z.eqb_spec (dir g) IN).
Qed.

(** An insertion at [p] keeps every pin of the list allocated. *)
Lemma allocated_insert p g' conn (h : gmap nat FakeGPIO) lg lg' :
  allocated (mkWorld h lg) conn → allocated (mkWorld (<[p := g']> h) lg') conn.
Proof.
  intros Hal x Hx. destruct (Hal x Hx) as [gx Hgx]. cbn [heap] in *.
  destruct (decide (p = x)) as [->|Hne].
  - rewrite lookup_insert_eq. eauto.
  - rewrite lookup_insert_ne by done. eauto.
Qed.

(** An insertion at [p] that keeps the direction of [p] keeps every pin
    of the list an input. *)
Lemma inputs_insert p g g' conn (h : gmap nat FakeGPIO) lg lg' :
  h !! p = Some g → dir g' = dir g →
  inputs (mkWorld h lg) conn → inputs (mkWorld (<[p := g']> h) lg') conn.
Proof.
  intros Hp Hd Hin x Hx. destruct (Hin x Hx) as (gx & Hgx & Hdx). cbn [heap] in *.
  destruct (decide (p = x)) as [->|Hne].
  - exists g'. rewrite lookup_insert_eq. split; [done|]. congruence.
  - exists gx. by rewrite lookup_insert_ne.
Qed.

Lemma SetState_range_inputs conn v : ∀ w,
  inputs w conn →
  ∃ w', SetState_range conn v w = Ret tt w'
        ∧ drives (λ x, Some x ∈ conn) v (heap w) (heap w').
Proof.
  induction conn as [|[q|] rest IH]; intros w Hin.
  - exists w. split; [done|]. intros x; split; [|done]. by intros ?%elem_of_nil.
  - destruct (Hin q) as (g & Hq & Hd); [left|].
    destruct (FakeInput_input q v w g Hq Hd) as [line HF].
    set (w1 := mkWorld (<[q := set_value v g]> (heap w)) (logged w ++ [line])) in *.
    destruct (IH w1) as (w' & Hrun & Hdr).
    { apply (inputs_insert q g _ _ _ (logged w)); [done|done|].
      intros x Hx. apply Hin. by right. }
    exists w'. split.
    { cbn [SetState_range]. unfold bind. by rewrite HF. }
    intros x. destruct (Hdr x) as [Hyes Hno]. simpl in Hyes, Hno. split.
    + intros Hx. destruct (decide (Some x ∈ rest)) as [Hr|Hr].
      * rewrite (Hyes Hr). destruct (decide (q = x)) as [->|Hne].
        -- by rewrite lookup_insert_eq, Hq.
        -- by rewrite lookup_insert_ne.
      * rewrite (Hno Hr). apply elem_of_cons in Hx as [[= ->]|Hx]; [|done].
        by rewrite lookup_insert_eq, Hq.
    + intros Hx. rewrite Hno by (intros ?; apply Hx; by right).
      apply lookup_insert_ne. intros ->. apply Hx. left.
  - destruct (IH w) as (w' & Hrun & Hdr).
    { intros x Hx. apply Hin. by right. }
    exists w'. split; [done|].
    intros x. destruct (Hdr x) as [Hyes Hno]. split.
    + intros [?|Hx]%elem_of_cons; [done|]. by apply Hyes.
    + intros Hx. apply Hno. intros ?. apply Hx. by right.
Qed.

Lemma SetState_range_not_input conn v : ∀ w,
  allocated w conn →
  (∃ q g, Some q ∈ conn ∧ heap w !! q = Some g ∧ dir g ≠ IN) →
  ∃ w', SetState_range conn v w
        = Panicked "tried to fake input for output gpio" w'.
Proof.
  induction conn as [|[q|] rest IH]; intros w Hal (b & gb & Hb & Hgb & Hdb).
  - by apply elem_of_nil in Hb.
  - destruct (Hal q) as [g Hq]; [left|]. cbn [SetState_range]. unfold bind.
    destruct (decide (dir g = IN)) as [Hd|Hd].
    + destruct (FakeInput_input q v w g Hq Hd) as [line ->].
      apply IH.
      * apply (allocated_insert q _ _ _ (logged w)).
        intros x Hx. apply Hal. by right.
      * apply elem_of_cons in Hb as [[= ->]|Hb]; [congruence|].
        simpl. destruct (decide (q = b)) as [->|Hne]; [congruence|].
        exists b, gb. by rewrite lookup_insert_ne.
    + rewrite (FakeInput_not_input q v w g Hq Hd). eauto.
  - simpl. apply IH.
    + intros x Hx. apply Hal. by right.
    + exists b, gb. apply elem_of_cons in Hb as [?|Hb]; done.
Qed.

Lemma drives_insert p v (h : gmap nat FakeGPIO) g :
  h !! p = Some g → drives (λ x, x = p) v h (<[p := set_value v g]> h).
Proof.
  intros Hp x. split.
  - intros ->. by rewrite lookup_insert_eq, Hp.
  - intros Hne. by rewrite lookup_insert_ne.
Qed.

Lemma drives_trans (X Y : nat → Prop) v (h h1 h2 : gmap nat FakeGPIO) :
  (∀ x, Decision (X x)) → (∀ x, Decision (Y x)) →
  drives X v h h1 → drives Y v h1 h2 → drives (λ x, X x ∨ Y x) v h h2.
Proof.
  intros DX DY H1 H2 x.
  destruct (H1 x) as [H1y H1n], (H2 x) as [H2y H2n].
  destruct (decide (X x)) as [HX|HX], (decide (Y x)) as [HY|HY].
  - split; [|tauto]. intros _. rewrite H2y, H1y by done. by destruct (h !! x).
  - split; [|tauto]. intros _. by rewrite H2n, H1y.
  - split; [|tauto]. intros _. by rewrite H2y, H1n.
  - split; [tauto|]. intros _. by rewrite H2n, H1n.
Qed.

(** The first half of [SetState] on an output: the log line and the
    pin's own value; the loop over its targets remains. *)
Lemma SetState_output p v w g :
  heap w !! p = Some g → dir g = OUT →
  ∃ line, SetState (Some p) v w
          = (SetState_range (targets g) v >> ret None)%go
              (mkWorld (<[p := set_value v g]> (heap w)) (logged w ++ [line])).
Proof.
  intros Hp Hd. unfold SetState, bind at 1 2, deref at 1. rewrite Hp, Hd, Z.eqb_refl.
  destruct (log_Ret p "set to state >%+v<" [ABool v] w g Hp) as [line Hl].
  exists line. unfold bind at 1 2 3. rewrite Hl.
  unfold assign. cbn [heap logged]. rewrite Hp.
  unfold bind, deref. cbn [heap logged]. rewrite lookup_insert_eq.
  unfold targets. cbn [with_value connectedTo]. by destruct (connectedTo g).
Qed.

Lemma SetState_inputs p v w g :
  heap w !! p = Some g → dir g = OUT → inputs w (targets g) →
  ∃ w', SetState (Some p) v w = Ret None w'
        ∧ drives (λ x, x = p ∨ Some x ∈ targets g) v (heap w) (heap w').
Proof.
  intros Hp Hd Hin. destruct (SetState_output p v w g Hp Hd) as [line ->].
  set (w1 := mkWorld _ _).
  destruct (SetState_range_inputs (targets g) v w1) as (w' & Hrun & Hdr).
  { by apply (inputs_insert p g _ _ _ (logged w)). }
  exists w'. split; [unfold bind; by rewrite Hrun|].
  eapply drives_trans; [apply _|intros; apply _| |exact Hdr].
  subst w1. cbn [heap]. by apply drives_insert.
Qed.

Lemma SetState_not_input p v w g :
  heap w !! p = Some g → dir g = OUT → allocated w (targets g) →
  (∃ q gq, Some q ∈ targets g ∧ heap w !! q = Some gq ∧ dir gq ≠ IN) →
  ∃ w', SetState (Some p) v w
        = Panicked "tried to fake input for output gpio" w'.
Proof.
  intros Hp Hd Hal (q & gq & Hq & Hgq & Hdq).
  destruct (SetState_output p v w g Hp Hd) as [line ->].
  set (w1 := mkWorld _ _).
  destruct (SetState_range_not_input (targets g) v w1) as [w' Hrun].
  - by apply (allocated_insert p _ _ _ (logged w)).
  - subst w1. cbn [heap]. destruct (decide (p = q)) as [->|Hne].
    + exists q, (set_value v g). rewrite lookup_insert_eq.
      split_and!; [done..|]. cbn. congruence.
    + exists q, gq. by rewrite lookup_insert_ne.
  - exists w'. unfold bind. by rewrite Hrun.
Qed.

Lemma ConnectTo_range_Ret conn : ∀ acc w,
  allocated w conn → ∃ names, ConnectTo_range conn acc w = Ret names w.
Proof.
  induction conn as [|[q|] rest IH]; intros acc w Hal; cbn [ConnectTo_range].
  - by exists acc.
  - destruct (Hal q) as [g Hq]; [left|]. unfold bind, deref. rewrite Hq.
    apply IH. intros x Hx. apply Hal. by right.
  - apply IH. intros x Hx. apply Hal. by right.
Qed.

(** [ConnectTo] stores the slice it is given, whatever the pins in it
    are, and logs one line unless the slice is nil. *)
Lemma ConnectTo_Ret p conn w g :
  heap w !! p = Some g → allocated w (default [] conn) →
  ∃ lines, ConnectTo (Some p) conn w
           = Ret tt (mkWorld (<[p := with_connectedTo g conn]> (heap w))
                             (logged w ++ lines)).
Proof.
  intros Hp Hal. unfold ConnectTo, bind at 1, assign. rewrite Hp.
  unfold bind at 1, deref at 1. cbn [heap logged]. rewrite lookup_insert_eq.
  cbn [with_connectedTo connectedTo]. destruct conn as [conn|].
  - set (w1 := mkWorld _ _).
    destruct (ConnectTo_range_Ret conn "" w1) as [names Hn].
    { apply (allocated_insert p _ _ _ (logged w)). by destruct w. }
    unfold bind. rewrite Hn.
    destruct (log_Ret p ("now connected to" +:+ names) [] w1
                (with_connectedTo g (Some conn))) as [line Hl].
    { subst w1. cbn [heap]. apply lookup_insert_eq. }
    exists [line]. by rewrite Hl.
  - exists []. unfold ret. by rewrite app_nil_r.
Qed.

Lemma GetState_Ret p w g :
  heap w !! p = Some g → GetState (Some p) w = Ret (value g, None) w.
Proof. intros Hp. unfold GetState, bind, deref. by rewrite Hp. Qed.

(** Driving an output whose targets are all inputs returns, leaves the
    wiring and the directions as they were, and the output and each of
    its targets then read as the value driven. *)
Lemma SetState_wired p conn v w :
  wired w p conn →
  ∃ w', SetState (Some p) v w = Ret None w'
        ∧ wired w' p conn
        ∧ drives (λ x, x = p ∨ Some x ∈ conn) v (heap w) (heap w')
        ∧ GetState (Some p) w' = Ret (v, None) w'
        ∧ ∀ q, Some q ∈ conn → GetState (Some q) w' = Ret (v, None) w'.
Proof.
  intros (g & Hp & Hd & <- & Hin).
  destruct (SetState_inputs p v w g Hp Hd Hin) as (w' & Hrun & Hdr).
  assert (Hp' : heap w' !! p = Some (set_value v g)).
  { destruct (Hdr p) as [Hy _]. rewrite Hy by (by left). by rewrite Hp. }
  assert (Hq' : ∀ q, Some q ∈ targets g →
                ∃ gq, heap w !! q = Some gq ∧ dir gq = IN
                      ∧ heap w' !! q = Some (set_value v gq)).
  { intros q Hq. destruct (Hin q Hq) as (gq & Hgq & Hdq). exists gq.
    split_and!; [done..|]. destruct (Hdr q) as [Hy _].
    rewrite Hy by (by right). by rewrite Hgq. }
  exists w'. split_and!; [done| |done|by apply GetState_Ret in Hp'|].
  - exists (set_value v g). split_and!; [done..|].
    intros q Hq. destruct (Hq' q Hq) as (gq & _ & Hdq & Hgq'). eauto.
  - intros q Hq. destruct (Hq' q Hq) as (gq & _ & _ & Hgq').
    by apply GetState_Ret in Hgq'.
Qed.

(** After [ConnectTo] with inputs only, the output is wired to them. *)
Lemma ConnectTo_wired p conn w g :
  heap w !! p = Some g → dir g = OUT → inputs w (default [] conn) →
  ∃ w', ConnectTo (Some p) conn w = Ret tt w'
        ∧ heap w' = <[p := with_connectedTo g conn]> (heap w)
        ∧ wired w' p (default [] conn).
Proof.
  intros Hp Hd Hin. destruct (ConnectTo_Ret p conn w g Hp) as [lines Hrun].
  { intros q Hq. destruct (Hin q Hq) as (gq & -> & _). eauto. }
  eexists. split_and!; [exact Hrun|done|].
  unfold wired. cbn [heap].
  exists (with_connectedTo g conn). rewrite lookup_insert_eq.
  split_and!; [done..|].
  apply (inputs_insert p g _ _ _ (logged w)); [done|done|by destruct w].
Qed.

End Effects.

(* --------------------------------------------------------------------- *)
(** *** Wiring and driving *)
(* --------------------------------------------------------------------- *)

Section Wiring.

Context `{D : Directions}.

(** C1, as the code has it. [ConnectTo] on an output pin returns normally
    whatever the directions of the pins it is given, and stores them as the
    pin's targets: nothing is checked at wire time. A target whose
    direction is not [IN] is found at drive time: the next [SetState] on
    the output panics, in [FakeInput]. Wiring inputs only succeeds, and so
    does the drive that follows. *)
Theorem C1_ConnectTo_checks_at_drive_time p conn v w g :
  heap w !! p = Some g → dir g = OUT → allocated w (default [] conn) →
  ∃ w', ConnectTo (Some p) conn w = Ret tt w'
        ∧ heap w' = <[p := with_connectedTo g conn]> (heap w)
        ∧ ((∃ q gq, Some q ∈ default [] conn ∧ heap w !! q = Some gq ∧ dir gq ≠ IN) →
           ∃ w'', SetState (Some p) v w'
                  = Panicked "tried to fake input for output gpio" w'')
        ∧ (inputs w (default [] conn) →
           ∃ w'', SetState (Some p) v w' = Ret None w'').
Proof.
  intros Hp Hd Hal. destruct (ConnectTo_Ret p conn w g Hp Hal) as [lines Hrun].
  eexists. split_and!; [exact Hrun|done| |].
  - intros (q & gq & Hq & Hgq & Hdq).
    apply (SetState_not_input p v _ (with_connectedTo g conn)); cbn [heap].
    + apply lookup_insert_eq.
    + done.
    + apply (allocated_insert p _ _ _ (logged w)). by destruct w.
    + destruct (decide (p = q)) as [->|Hne].
      * exists q, (with_connectedTo g conn). rewrite lookup_insert_eq.
        split_and!; [done..|]. cbn. congruence.
      * exists q, gq. by rewrite lookup_insert_ne.
  - intros Hin.
    destruct (ConnectTo_wired p conn w g Hp Hd Hin) as (w2 & Hrun2 & _ & Hw).
    rewrite Hrun in Hrun2. injection Hrun2 as <-.
    destruct (SetState_wired p _ v _ Hw) as (w'' & Hset & _). eauto.
Qed.

(** C3. [SetState] on a pin whose direction is [IN] panics with the
    message about the direction, in the world it was called in: no pin's
    value, direction or wiring has changed, and nothing was logged. *)
Theorem C3_SetState_on_input_panics p v w g :
  IN ≠ OUT → heap w !! p = Some g → dir g = IN →
  SetState (Some p) v w = Panicked "tried to set state on IN gpio" w.
Proof.
  intros Hne Hp Hd. unfold SetState, bind, deref. rewrite Hp, Hd.
  by destruct (Z.eqb_spec IN OUT).
Qed.

(** C4. With output [p] wired to inputs [a] and [b], [SetState p true]
    returns and [a] and [b] then read true; a following [SetState p false]
    returns and both read false. The reads are made in the world each
    [SetState] returns, so the targets have the value when it returns. *)
Theorem C4_drive_reaches_both_targets p a b w gp ga gb :
  heap w !! p = Some gp → dir gp = OUT →
  heap w !! a = Some ga → dir ga = IN →
  heap w !! b = Some gb → dir gb = IN →
  ∃ w1 w2 w3,
    ConnectTo (Some p) (Some [Some a; Some b]) w = Ret tt w1
    ∧ SetState (Some p) true w1 = Ret None w2
    ∧ GetState (Some a) w2 = Ret (true, None) w2
    ∧ GetState (Some b) w2 = Ret (true, None) w2
    ∧ SetState (Some p) false w2 = Ret None w3
    ∧ GetState (Some a) w3 = Ret (false, None) w3
    ∧ GetState (Some b) w3 = Ret (false, None) w3.
Proof.
  intros Hp Hdp Ha Hda Hb Hdb.
  destruct (ConnectTo_wired p (Some [Some a; Some b]) w gp Hp Hdp) as (w1 & Hc & _ & Hw1).
  { intros q [[= ->]|[[= ->]|[]%elem_of_nil]%elem_of_cons]%elem_of_cons; eauto. }
  cbn [default] in Hw1.
  destruct (SetState_wired p _ true w1 Hw1) as (w2 & Hs2 & Hw2 & _ & _ & Hg2).
  destruct (SetState_wired p _ false w2 Hw2) as (w3 & Hs3 & _ & _ & _ & Hg3).
  exists w1, w2, w3. split_and!; [done..|apply Hg2|apply Hg2|done|apply Hg3|apply Hg3];
    set_solver.
Qed.

(** C5. [FakeInput] on an input pin sets the value of that pin and
    changes nothing else. So when output [p] is driven, a pin [t] it is
    wired to takes the value, and a pin [u] that [t] is wired to keeps its
    state: one level of fan-out. ([u] is a pin reached through [t] only:
    not [p] itself, and not wired to [p] directly, which would give it
    the value through its own edge.) *)
Theorem C5_no_cascade_through_input p t u v w gp gt :
  heap w !! p = Some gp → dir gp = OUT → inputs w (targets gp) →
  Some t ∈ targets gp → heap w !! t = Some gt → Some u ∈ targets gt →
  u ≠ p → Some u ∉ targets gp →
  (∃ line, FakeInput (Some t) v w
           = Ret None (mkWorld (<[t := set_value v gt]> (heap w)) (logged w ++ [line])))
  ∧ ∃ w', SetState (Some p) v w = Ret None w'
          ∧ heap w' !! t = Some (set_value v gt)
          ∧ heap w' !! u = heap w !! u
          ∧ drives (λ x, x = p ∨ Some x ∈ targets gp) v (heap w) (heap w').
Proof.
  intros Hp Hdp Hin Ht Hgt Hu Hup Hun. split.
  - destruct (Hin t Ht) as (gt' & Hgt' & Hdt).
    assert (gt' = gt) as -> by congruence. by apply FakeInput_input.
  - destruct (SetState_inputs p v w gp Hp Hdp Hin) as (w' & Hrun & Hdr).
    exists w'. split_and!; [done| | |done].
    + destruct (Hdr t) as [Hy _]. rewrite Hy by (by right). by rewrite Hgt.
    + destruct (Hdr u) as [_ Hn]. apply Hn. by intros [?|?].
Qed.

(** C6. After [ConnectTo p a] and then [ConnectTo p] with no pin (the nil
    slice of a call without arguments, or an empty slice), [SetState p v]
    returns, [p] reads [v], and [a] is as it was before. *)
Theorem C6_rewiring_replaces_targets p a v conn0 w gp ga :
  IN ≠ OUT →
  heap w !! p = Some gp → dir gp = OUT →
  heap w !! a = Some ga → dir ga = IN →
  conn0 = None ∨ conn0 = Some [] →
  ∃ w1 w2 w3,
    ConnectTo (Some p) (Some [Some a]) w = Ret tt w1
    ∧ ConnectTo (Some p) conn0 w1 = Ret tt w2
    ∧ SetState (Some p) v w2 = Ret None w3
    ∧ GetState (Some p) w3 = Ret (v, None) w3
    ∧ heap w3 !! a = heap w !! a.
Proof.
  intros Hne Hp Hdp Ha Hda Hc0.
  assert (Hpa : p ≠ a) by (intros ->; congruence).
  destruct (ConnectTo_wired p (Some [Some a]) w gp Hp Hdp) as (w1 & Hc1 & Hh1 & Hw1).
  { intros q [[= ->]|[]%elem_of_nil]%elem_of_cons. eauto. }
  assert (Hp1 : heap w1 !! p = Some (with_connectedTo gp (Some [Some a]))).
  { rewrite Hh1. apply lookup_insert_eq. }
  destruct (ConnectTo_wired p conn0 w1 _ Hp1 Hdp) as (w2 & Hc2 & Hh2 & Hw2).
  { destruct Hc0 as [-> | ->]; by intros q ?%elem_of_nil. }
  assert (default [] conn0 = []) as Hnil by (by destruct Hc0 as [-> | ->]).
  rewrite Hnil in Hw2.
  destruct (SetState_wired p _ v w2 Hw2) as (w3 & Hs3 & _ & Hdr & Hgp & _).
  exists w1, w2, w3. split_and!; [done..|].
  destruct (Hdr a) as [_ Hn]. rewrite Hn.
  - rewrite Hh2, lookup_insert_ne, Hh1, lookup_insert_ne; done.
  - intros [?|[]%elem_of_nil]. congruence.
Qed.

(** A new pin is at a free address, and the older pins are untouched. *)
Lemma NewFakeNamedGPIO_Ret name d lt w :
  let p := fresh (dom (heap w)) in
  NewFakeNamedGPIO name d lt w
  = Ret (Some p) (mkWorld (<[p := mkFakeGPIO name d false lt None]> (heap w)) (logged w))
  ∧ heap w !! p = None.
Proof.
  split; [done|]. apply not_elem_of_dom, is_fresh.
Qed.

Lemma NewFakeNamedGPIO_low name d lt w :
  starts_low_and_unwired w (NewFakeNamedGPIO name d lt w).
Proof.
  destruct (NewFakeNamedGPIO_Ret name d lt w) as [Hrun Hfresh].
  set (p := fresh (dom (heap w))) in *.
  eexists p, _. split_and!; [exact Hrun|done|..]; cbn [heap].
  - intros x Hx. by rewrite lookup_insert_ne.
  - eexists. by rewrite lookup_insert_eq.
  - apply (GetState_Ret p _ (mkFakeGPIO name d false lt None)), lookup_insert_eq.
Qed.

Lemma NewFakeNamedGPIO_drive name lt v w :
  drive_reaches_nobody v w (NewFakeNamedGPIO name OUT lt w).
Proof.
  destruct (NewFakeNamedGPIO_Ret name OUT lt w) as [Hrun Hfresh].
  set (p := fresh (dom (heap w))) in *.
  set (w' := mkWorld _ _) in Hrun.
  assert (Hw : wired w' p []).
  { eexists. subst w'. cbn [heap]. rewrite lookup_insert_eq.
    split_and!; [done..|]. by intros q ?%elem_of_nil. }
  destruct (SetState_wired p [] v w' Hw) as (w'' & Hs & _ & Hdr & Hg & _).
  exists p, w', w''. split_and!; [done..|].
  intros x Hx. destruct (Hdr x) as [_ Hn]. rewrite Hn.
  - subst w'. cbn [heap]. by rewrite lookup_insert_ne.
  - by intros [?|?%elem_of_nil].
Qed.

(** C9. The pin that [NewFakeNamedGPIO] or [NewFakeGPIO] makes has value
    false and no targets: [GetState] on it returns false, and when it is
    made an output, driving it changes no other pin. *)
Theorem C9_new_pin_low_and_unwired name lt gpionum direction v w :
  starts_low_and_unwired w (NewFakeNamedGPIO name direction lt w)
  ∧ starts_low_and_unwired w (NewFakeGPIO gpionum direction w)
  ∧ drive_reaches_nobody v w (NewFakeNamedGPIO name OUT lt w)
  ∧ drive_reaches_nobody v w (NewFakeGPIO gpionum OUT w).
Proof.
  split_and!.
  - apply NewFakeNamedGPIO_low.
  - apply NewFakeNamedGPIO_low.
  - apply NewFakeNamedGPIO_drive.
  - apply NewFakeNamedGPIO_drive.
Qed.

(** C10. [Close] returns in the world it was called in, for any receiver:
    names, directions, values and wiring are what they were, and each of
    [GetState], [SetState], [FakeInput] and [ConnectTo], on the closed pin
    or on any other, does after [Close] what it does without it. *)
Theorem C10_Close_changes_nothing gpio q v conn w :
  Close gpio w = Ret tt w
  ∧ (Close gpio >> GetState q)%go w = GetState q w
  ∧ (Close gpio >> SetState q v)%go w = SetState q v w
  ∧ (Close gpio >> FakeInput q v)%go w = FakeInput q v w
  ∧ (Close gpio >> ConnectTo q conn)%go w = ConnectTo q conn w.
Proof. by split_and!. Qed.

End Wiring.

(* --------------------------------------------------------------------- *)
(** *** The properties on the test bench *)
(* --------------------------------------------------------------------- *)

(** [ConnectTo] of output 0 to output 3 returns; the drive panics. *)
Lemma C1_on_bench :
  ∃ w', ConnectTo (D := example_directions) (Some 0%nat) (Some [Some 3%nat]) bench
        = Ret tt w'
        ∧ ∃ w'', SetState (D := example_directions) (Some 0%nat) true w'
                 = Panicked "tried to fake input for output gpio" w''.
Proof.
  destruct (C1_ConnectTo_checks_at_drive_time (D := example_directions)
              0%nat (Some [Some 3%nat]) true bench (pin "p" 1 None))
    as (w' & Hc & _ & Hpanic & _).
  - reflexivity.
  - reflexivity.
  - intros q Hq. apply list_elem_of_singleton in Hq. injection Hq as ->.
    eexists. reflexivity.
  - exists w'. split; [exact Hc|]. apply Hpanic.
    exists 3%nat, (pin "q" 1 None). split_and!.
    + apply list_elem_of_singleton. reflexivity.
    + reflexivity.
    + discriminate.
Defined.

(** The specification asks the call that wires output 0 to output 3 to
    fail. It returns, with the output pin stored as the target and one
    line logged. *)
Lemma C1_ConnectTo_of_two_outputs_returns :
  (dir <$> heap bench !! 3%nat) = Some (OUT (Directions := example_directions))
  ∧ OUT (Directions := example_directions) ≠ IN (Directions := example_directions)
  ∧ ConnectTo (D := example_directions) (Some 0%nat) (Some [Some 3%nat]) bench
    = Ret tt (mkWorld (<[0%nat := pin "p" 1 (Some [Some 3%nat])]> (heap bench))
                      [mkPrintf FakeGPIODefaultLogTarget_
                                "FakeGPIO %s(%s): now connected to q(OUT)"
                                [AStr "p"; AStr "OUT"]]).
Proof. split_and!; [reflexivity|discriminate|reflexivity]. Qed.

Lemma C3_on_bench :
  SetState (D := example_directions) (Some 1%nat) true bench
  = Panicked "tried to set state on IN gpio" bench.
Proof.
  apply (C3_SetState_on_input_panics (D := example_directions)
           1%nat true bench (pin "a" 0 None)).
  - discriminate.
  - reflexivity.
  - reflexivity.
Defined.

Lemma C4_on_bench :
  ∃ w1 w2 w3,
    ConnectTo (D := example_directions) (Some 0%nat) (Some [Some 1%nat; Some 2%nat]) bench
    = Ret tt w1
    ∧ SetState (D := example_directions) (Some 0%nat) true w1 = Ret None w2
    ∧ GetState (Some 1%nat) w2 = Ret (true, None) w2
    ∧ GetState (Some 2%nat) w2 = Ret (true, None) w2
    ∧ SetState (D := example_directions) (Some 0%nat) false w2 = Ret None w3
    ∧ GetState (Some 1%nat) w3 = Ret (false, None) w3
    ∧ GetState (Some 2%nat) w3 = Ret (false, None) w3.
Proof.
  apply (C4_drive_reaches_both_targets (D := example_directions)
           0%nat 1%nat 2%nat bench (pin "p" 1 None) (pin "a" 0 None) (pin "b" 0 None));
    reflexivity.
Defined.

(** On the relay bench, driving output 0 sets input 1; input 2 and
    output 3, which input 1 is wired to, are as they were. *)
Lemma C5_on_relay_bench :
  ∃ w', SetState (D := example_directions) (Some 0%nat) true relay_bench = Ret None w'
        ∧ (value <$> heap w' !! 1%nat) = Some true
        ∧ heap w' !! 2%nat = Some (pin "u" 0 None)
        ∧ heap w' !! 3%nat = Some (pin "q" 1 None).
Proof.
  destruct (C5_no_cascade_through_input (D := example_directions)
              0%nat 1%nat 2%nat true relay_bench
              (pin "p" 1 (Some [Some 1%nat]))
              (pin "t" 0 (Some [Some 2%nat; Some 3%nat])))
    as (_ & w' & Hrun & Ht & Hu & Hdr).
  - reflexivity.
  - reflexivity.
  - intros q Hq. apply list_elem_of_singleton in Hq. injection Hq as ->.
    eexists. split; reflexivity.
  - apply list_elem_of_singleton. reflexivity.
  - reflexivity.
  - apply elem_of_cons. left. reflexivity.
  - discriminate.
  - intros Hq. apply list_elem_of_singleton in Hq. discriminate.
  - exists w'. split_and!.
    + exact Hrun.
    + rewrite Ht. reflexivity.
    + rewrite Hu. reflexivity.
    + destruct (Hdr 3%nat) as [_ Hn]. rewrite Hn; [reflexivity|].
      intros [Hq|Hq]; [discriminate|].
      apply list_elem_of_singleton in Hq. discriminate.
Defined.

Lemma C6_on_bench :
  ∃ w1 w2 w3,
    ConnectTo (D := example_directions) (Some 0%nat) (Some [Some 1%nat]) bench = Ret tt w1
    ∧ ConnectTo (D := example_directions) (Some 0%nat) None w1 = Ret tt w2
    ∧ SetState (D := example_directions) (Some 0%nat) true w2 = Ret None w3
    ∧ GetState (Some 0%nat) w3 = Ret (true, None) w3
    ∧ heap w3 !! 1%nat = heap bench !! 1%nat.
Proof.
  apply (C6_rewiring_replaces_targets (D := example_directions)
           0%nat 1%nat true None bench (pin "p" 1 None) (pin "a" 0 None)).
  - discriminate.
  - reflexivity.
  - reflexivity.
  - reflexivity.
  - reflexivity.
  - left. reflexivity.
Defined.

End FakeFacts.

(* ===================================================================== *)
(** ** Properties of the sysfs pins *)
(* ===================================================================== *)

Module SysfsFacts.

Import Sysfs.

Section Exporting.

Context {K : Type} `{Kernel K}.

(** C8. [enable_export] on a handle returns. When [os.Stat] finds the
    directory of the pin, it returns nil and no write has been added to
    the calls made. A write is added only when [os.Stat] said that the
    directory does not exist, and it is then the pin number and a newline
    on the export file; this write is made whenever the export file could
    be opened. *)
Theorem C8_enable_export_skips_exported_pin (g : SysfsGPIO) (w : world K) :
  let dir := "/sys/class/gpio/gpio" +:+ pretty (Number g) in
  let export := "/sys/class/gpio/export" in
  let stat := sys (Stat dir) (kernel w) in
  let opened := sys (OpenFile export [O_WRONLY; O_SYNC] perm_0666) (snd stat) in
  let line := (export, pretty (Number g) +:+ newline) in
  ∃ r w', enable_export (Some g) w = Ret r w'
    ∧ (fst stat = None → r = None ∧ writes (calls w') = writes (calls w))
    ∧ (writes (calls w') ≠ writes (calls w) →
         (∃ e, fst stat = Some e ∧ os_IsNotExist e = true)
         ∧ writes (calls w') = (writes (calls w) ++ [line])%list)
    ∧ (∀ e, fst stat = Some e → os_IsNotExist e = true → snd (fst opened) = None →
         writes (calls w') = (writes (calls w) ++ [line])%list).
Proof.
  intros dir export stat opened line. subst dir export stat opened line.
  unfold enable_export, os_Stat, bind at 1, call at 1.
  destruct (sys (Stat _) (kernel w)) as [[e|] k1] eqn:Estat; cbn [fst snd].
  2:{ eexists _, _. split; [reflexivity|]. cbn [calls]. unfold writes.
      rewrite omap_app. cbn. rewrite app_nil_r. split_and!; [done|by intros []|done]. }
  destruct (os_IsNotExist e) eqn:Ene; cbn [negb].
  2:{ eexists _, _. split; [reflexivity|]. cbn [calls]. unfold writes.
      rewrite omap_app. cbn. rewrite app_nil_r.
      split_and!; [done|by intros []|congruence]. }
  unfold bind at 1, os_OpenFile, bind at 1, call at 1. cbn [kernel calls].
  destruct (sys (OpenFile _ _ _) k1) as [[fdn [eo|]] k2] eqn:Eopen; cbn [fst snd].
  { eexists _, _. split; [reflexivity|]. cbn [calls]. unfold writes.
    rewrite !omap_app. cbn. rewrite !app_nil_r. split_and!; [done|by intros []|].
    intros ? _ _ [=]. }
  unfold ret at 1, bind at 1, fmt_Fprintf, call at 1. cbn [kernel calls].
  destruct (sys (Write _ _) k2) as [[m ew] k3] eqn:Ewrite.
  eexists _, _. split; [reflexivity|]. cbn [calls]. unfold writes.
  rewrite !omap_app. cbn. rewrite !app_nil_r. split_and!; [done| |done].
  intros _. split; [by exists e|done].
Qed.

End Exporting.

Section Attach.

Context {K : Type} `{Kernel K}.

Lemma quiet_ret {A} (a : A) : quiet (K := K) (ret a).
Proof. intros w. by exists a, w. Qed.

Lemma quiet_bind {A B} (m : M (world K) A) (k : A → M (world K) B) :
  quiet m → (∀ a, quiet (k a)) → quiet (bind m k).
Proof.
  intros Hm Hk w. destruct (Hm w) as (a & w1 & Em & Hs1 & Hg1).
  destruct (Hk a w1) as (b & w2 & Ek & Hs2 & Hg2).
  exists b, w2. unfold bind. rewrite Em, Ek. split_and!; congruence.
Qed.

Lemma quiet_defer {A} (d : M (world K) unit) (m : M (world K) A) :
  quiet d → quiet m → quiet (defer d m).
Proof.
  intros Hd Hm w. destruct (Hm w) as (a & w1 & Em & Hs1 & Hg1).
  destruct (Hd w1) as (b & w2 & Ed & Hs2 & Hg2).
  exists a, w2. unfold defer. rewrite Em, Ed. split_and!; congruence.
Qed.

Lemma quiet_call {R} (c : syscall R) : quiet (call c).
Proof.
  intros w. unfold call. destruct (sys c (kernel w)) as [r k]. by eexists _, _.
Qed.

Local Ltac quiet_step :=
  first
    [ apply quiet_ret
    | apply quiet_call
    | apply quiet_defer
    | apply quiet_bind; [|intros ?]
    | match goal with
      | |- quiet (match ?x with _ => _ end) => destruct x
      end ].

Lemma quiet_os_OpenFile name flag perm : quiet (os_OpenFile name flag perm).
Proof. unfold os_OpenFile. repeat quiet_step. Qed.

Lemma quiet_File_Read f len : quiet (File_Read f len).
Proof. unfold File_Read. repeat quiet_step. Qed.

Lemma quiet_File_Seek f offset whence : quiet (File_Seek f offset whence).
Proof. unfold File_Seek. repeat quiet_step. Qed.

Lemma quiet_File_Close f : quiet (File_Close f).
Proof. unfold File_Close. repeat quiet_step. Qed.

(** [GetEdge] on a handle returns, and has touched neither the channels
    nor the goroutines. *)
Lemma quiet_GetEdge (g : SysfsGPIO) : quiet (GetEdge (Some g)).
Proof.
  unfold GetEdge.
  repeat first [ apply quiet_os_OpenFile | apply quiet_File_Read
               | apply quiet_File_Seek | apply quiet_File_Close | quiet_step ].
Qed.

(** C2, as the code has it. [SetEdgeCallback] reads the edge mode and
    nothing else: the direction of the pin is not looked at. When
    [GetEdge] returns an error the call returns that error, and when the
    edge mode is "none" it returns the error "Edge value is set to NONE";
    in both cases the world is the one [GetEdge] left, with no goroutine
    added. Otherwise it returns nil and exactly one goroutine has been
    added. *)
Theorem C2_SetEdgeCallback_checks_edge_only (g : SysfsGPIO) (callback : option chan)
    (timeout : Z) (w : world K) :
  ∃ edge err w1,
    GetEdge (Some g) w = Ret (edge, err) w1
    ∧ spawned w1 = spawned w
    ∧ (∀ e, err = Some e →
         SetEdgeCallback (Some g) callback timeout w = Ret (Some e) w1)
    ∧ (err = None → edge = "none" →
         SetEdgeCallback (Some g) callback timeout w
         = Ret (Some (ErrorsNew "Edge value is set to NONE")) w1)
    ∧ (err = None → edge ≠ "none" →
         SetEdgeCallback (Some g) callback timeout w
         = Ret None (mkWorld (kernel w1) (calls w1) (streams w1)
                             (spawned w ++ [mkTask g callback timeout]))).
Proof.
  destruct (quiet_GetEdge g w) as ([edge err] & w1 & Eg & _ & Hsp).
  exists edge, err, w1. unfold SetEdgeCallback, bind. rewrite Eg.
  split_and!; [done|done|by intros e ->|..].
  - intros -> ->. done.
  - intros -> Hne. destruct (String.eqb_spec edge "none") as [|_]; [done|].
    unfold go, ret. by rewrite Hsp.
Qed.

End Attach.

(* --------------------------------------------------------------------- *)
(** *** The polling loop *)
(* --------------------------------------------------------------------- *)

Section Monitor.

Context {K : Type} `{Kernel K}.

(** [GetState] on a handle with an open value file: a seek and a read,
    and an error exactly when the answer to the read is bad. *)
Lemma GetState_answer (g : SysfsGPIO) (f : File) (w : world K) :
  fd g = Some f →
  ∃ sr rr k state err,
    GetState (Some g) w
    = Ret (state, err)
          (mkWorld k (calls w ++ [Event (Seek f 0 0) sr; Event (Read f 16) rr])
                   (streams w) (spawned w))
    ∧ (is_Some err ↔ read_fails rr).
Proof.
  intros Hfd. unfold GetState. rewrite Hfd.
  unfold bind, File_Seek, File_Read, bind, call, ret. cbn [kernel calls streams spawned].
  destruct (sys (Seek f 0 0) (kernel w)) as [sr k1].
  cbn [kernel calls streams spawned].
  destruct (sys (Read f 16) k1) as [[data er] k2] eqn:Er.
  cbn [fst snd kernel calls streams spawned].
  unfold read_fails. cbn [fst snd].
  set (d := String.substring 0 16 data).
  assert (Hfin : ∀ (state : bool) (err : option error),
             (is_Some err ↔ is_Some er ∨ String.length d ≠ 2%nat) →
             ∃ sr' rr k state' err',
               Ret (state, err)
                   (mkWorld k2 ((calls w ++ [Event (Seek f 0 0) sr])
                                ++ [Event (Read f 16) (data, er)])
                            (streams w) (spawned w))
               = Ret (state', err')
                     (mkWorld k (calls w ++ [Event (Seek f 0 0) sr'; Event (Read f 16) rr])
                              (streams w) (spawned w))
               ∧ (is_Some err' ↔ is_Some rr.2 ∨ String.length (String.substring 0 16 rr.1) ≠ 2%nat)).
  { intros state err Herr. exists sr, (data, er), k2, state, err.
    by rewrite <- app_assoc. }
  destruct er as [e|].
  { apply Hfin. split; [by left|eauto]. }
  destruct (String.length d =? 0)%nat eqn:E0.
  { apply Hfin. split; [|eauto]. intros _. right. apply Nat.eqb_eq in E0. lia. }
  destruct (Z.eqb_spec (Z.of_nat (String.length d)) 2) as [E2|E2]; cbn [negb].
  - case_bool_decide; apply Hfin;
      (split; [by intros [? [=]]|]); intros [[? [=]]|Hn]; lia.
  - apply Hfin. split; [|eauto]. intros _. right. lia.
Qed.

Lemma last_snoc {A} (l : list A) (x : A) : last (l ++ [x]) = Some x.
Proof. by rewrite last_app. Qed.




End Monitor.

(* --------------------------------------------------------------------- *)
(** *** The properties on the board *)
(* --------------------------------------------------------------------- *)

Example NewSysfsGPIO_on_board :
  ∃ w', NewSysfsGPIO (D := example_directions) 7 1 (boot board)
        = Ret (Some (handle 7), None) w'.
Proof. eexists. vm_compute. reflexivity. Qed.

(** Pin 7, found exported: nothing is written. Pin 9, not exported: its
    number is written to the export file. *)
Lemma C8_on_board :
  (∃ w', enable_export (Some (handle 7)) (boot board) = Ret None w'
         ∧ writes (calls w') = [])
  ∧ (∃ w', enable_export (Some (handle 9)) (boot board) = Ret None w'
           ∧ writes (calls w') = [("/sys/class/gpio/export", "9" +:+ newline)]).
Proof.
  split.
  - destruct (C8_enable_export_skips_exported_pin (handle 7) (boot board))
      as (r & w' & Hrun & Hyes & _).
    destruct Hyes as [-> Hw]; [reflexivity|]. by exists w'.
  - destruct (C8_enable_export_skips_exported_pin (handle 9) (boot board))
      as (r & w' & Hrun & _ & _ & Hno).
    specialize (Hno ENOENT eq_refl eq_refl eq_refl).
    exists w'. split; [|exact Hno].
    rewrite Hrun. f_equal. vm_compute in Hrun. by injection Hrun as <- _.
Defined.

(** The edge mode of pin 8 is "none": an error, and no goroutine. *)
Lemma C2_on_board :
  ∃ w', SetEdgeCallback (Some (handle 8)) (Some (Chan 0%nat)) 100 (boot board)
        = Ret (Some (ErrorsNew "Edge value is set to NONE")) w'
        ∧ spawned w' = [].
Proof.
  destruct (C2_SetEdgeCallback_checks_edge_only
              (handle 8) (Some (Chan 0%nat)) 100 (boot board))
    as (edge & err & w1 & Eg & Hsp & _ & Hnone & _).
  vm_compute in Eg. injection Eg as <- <- <-.
  eexists. split; [apply Hnone; reflexivity|reflexivity].
Defined.

(** The specification asks the call on pin 7, whose direction reads as
    [OUT], to fail. It returns nil and the goroutine is started. *)
Lemma C2_SetEdgeCallback_on_output_returns_nil :
  (∃ w', CheckDirection (D := example_directions) (Some (handle 7)) (boot board)
         = Ret (OUT (Directions := example_directions), None) w')
  ∧ OUT (Directions := example_directions)
    ≠ IN (Directions := example_directions)
  ∧ ∃ w', SetEdgeCallback (Some (handle 7)) (Some (Chan 0%nat)) 100 (boot board)
          = Ret None w'
          ∧ spawned w' = [mkTask (handle 7) (Some (Chan 0%nat)) 100].
Proof.
  split_and!.
  - eexists. vm_compute. reflexivity.
  - discriminate.
  - eexists. split; vm_compute; reflexivity.
Qed.



End SysfsFacts.

(* ===================================================================== *)
(** ** More properties of the fake pins *)
(* ===================================================================== *)

Module FakeMore.

Import Fake FakeRest FakeFacts.

Section Reconfiguring.

Context `{D : Directions}.

Lemma SetDirection_Ret p d w g :
  heap w !! p = Some g → d = IN ∨ d = OUT →
  SetDirection (Some p) d w
  = Ret None (mkWorld (<[p := with_dir g d]> (heap w)) (logged w)).
Proof.
  intros Hp Hd. unfold SetDirection.
  assert ((d =? IN) || (d =? OUT) = true) as ->.
  { destruct Hd as [-> | ->]; rewrite Z.eqb_refl; [done|by rewrite orb_true_r]. }
  cbn [negb]. unfold bind, assign. by rewrite Hp.
Qed.

(** X1. [SetDirection] takes [IN] and [OUT] and nothing else. With one
    of them it returns nil, the pin has the new direction and the name,
    value, logger and wiring it had, nothing is logged, and
    [CheckDirection] returns the direction set. With any other integer it
    panics before it looks at the receiver, and nothing has changed. *)
Theorem X1_SetDirection_CheckDirection p d w g :
  heap w !! p = Some g →
  (d = IN ∨ d = OUT →
   ∃ w', SetDirection (Some p) d w = Ret None w'
         ∧ heap w' = <[p := with_dir g d]> (heap w)
         ∧ logged w' = logged w
         ∧ CheckDirection (Some p) w' = Ret (d, None) w')
  ∧ (d ≠ IN → d ≠ OUT →
     ∀ gpio, SetDirection gpio d w = Panicked "direction neither IN nor OUT" w).
Proof.
  intros Hp. split.
  - intros Hd. rewrite (SetDirection_Ret p d w g Hp Hd).
    eexists. split_and!; [done..|].
    unfold CheckDirection, bind, deref. cbn [heap]. by rewrite lookup_insert_eq.
  - intros Hi Ho gpio. unfold SetDirection.
    destruct (Z.eqb_spec d IN) as [|_]; [done|].
    by destruct (Z.eqb_spec d OUT) as [|_].
Qed.

(** X2. A change of direction decides what the pin accepts next: after
    [SetDirection IN] a drive panics and a faked input is taken; after
    [SetDirection OUT] a faked input panics. *)
Theorem X2_direction_decides_next_call p v w g :
  IN ≠ OUT → heap w !! p = Some g →
  (∃ w1, SetDirection (Some p) IN w = Ret None w1
         ∧ SetState (Some p) v w1 = Panicked "tried to set state on IN gpio" w1
         ∧ ∃ w2, FakeInput (Some p) v w1 = Ret None w2
                 ∧ GetState (Some p) w2 = Ret (v, None) w2)
  ∧ (∃ w1, SetDirection (Some p) OUT w = Ret None w1
           ∧ FakeInput (Some p) v w1
             = Panicked "tried to fake input for output gpio" w1).
Proof.
  intros Hne Hp. split.
  - eexists. split; [apply (SetDirection_Ret p IN w g Hp); by left|].
    set (w1 := mkWorld _ _).
    assert (Hp1 : heap w1 !! p = Some (with_dir g IN)) by apply lookup_insert_eq.
    split.
    + unfold SetState, bind, deref. rewrite Hp1. cbn [dir with_dir].
      by destruct (Z.eqb_spec IN OUT).
    + destruct (FakeInput_input p v w1 _ Hp1 eq_refl) as [line Hf].
      eexists. split; [exact Hf|].
      apply (GetState_Ret p _ (set_value v (with_dir g IN))). cbn [heap].
      apply lookup_insert_eq.
  - eexists. split; [apply (SetDirection_Ret p OUT w g Hp); by right|].
    apply (FakeInput_not_input p v _ (with_dir g OUT)).
    + apply lookup_insert_eq.
    + cbn. congruence.
Qed.

(** X3. [FakeInput] is taken by inputs only. On a pin whose direction is
    [IN] it returns, that pin then reads the value and no other pin has
    changed. On a pin with any other direction it panics and nothing has
    changed. *)
Theorem X3_FakeInput_only_on_inputs q v w g :
  heap w !! q = Some g →
  (dir g = IN →
   ∃ w', FakeInput (Some q) v w = Ret None w'
         ∧ drives (λ x, x = q) v (heap w) (heap w')
         ∧ GetState (Some q) w' = Ret (v, None) w')
  ∧ (dir g ≠ IN →
     FakeInput (Some q) v w = Panicked "tried to fake input for output gpio" w).
Proof.
  intros Hq. split.
  - intros Hd. destruct (FakeInput_input q v w g Hq Hd) as [line Hf].
    eexists. split_and!; [exact Hf|by apply drives_insert|].
    apply (GetState_Ret q _ (set_value v g)), lookup_insert_eq.
  - by apply FakeInput_not_input.
Qed.

End Reconfiguring.

Section Driving.

Context `{D : Directions}.

Lemma bind_assoc {S A B C} (m : M S A) (k : A → M S B) (h : B → M S C) (s : S) :
  bind (bind m k) h s = bind m (λ a, bind (k a) h) s.
Proof. unfold bind. by destruct (m s). Qed.

Lemma bind_ext {S A B} (m : M S A) (k k' : A → M S B) (s : S) :
  (∀ a s', k a s' = k' a s') → bind m k s = bind m k' s.
Proof. intros Hk. unfold bind. by destruct (m s). Qed.

Lemma SetState_range_app l1 l2 v w :
  SetState_range (l1 ++ l2) v w
  = (SetState_range l1 v >> SetState_range l2 v)%go w.
Proof.
  revert w. induction l1 as [|[q|] l1 IH]; intros w; cbn [app SetState_range].
  - done.
  - rewrite bind_assoc. apply bind_ext. intros _ s'. apply IH.
  - apply IH.
Qed.

(** X4. A drive that fails is not undone. When the first target that is
    not an input comes after some inputs, [SetState] panics at it, and
    by then the output itself and the inputs before it have the new
    value; every other pin is as it was. *)
Theorem X4_failed_drive_keeps_partial_effect p q v w g gq pre post :
  heap w !! p = Some g → dir g = OUT →
  targets g = (pre ++ Some q :: post)%list → inputs w pre →
  heap w !! q = Some gq → dir gq ≠ IN →
  ∃ w', SetState (Some p) v w = Panicked "tried to fake input for output gpio" w'
        ∧ drives (λ x, x = p ∨ Some x ∈ pre) v (heap w) (heap w').
Proof.
  intros Hp Hd Ht Hin Hq Hdq.
  destruct (SetState_output p v w g Hp Hd) as [line ->]. rewrite Ht.
  set (w0 := mkWorld _ _).
  destruct (SetState_range_inputs pre v w0) as (w1 & Hrun & Hdr).
  { by apply (inputs_insert p g _ _ _ (logged w)). }
  assert (Hqpre : Some q ∉ pre).
  { intros Hm. destruct (Hin q Hm) as (g' & Hg' & Hd'). congruence. }
  assert (Hq1 : ∃ g1, heap w1 !! q = Some g1 ∧ dir g1 ≠ IN).
  { destruct (Hdr q) as [_ Hn]. rewrite (Hn Hqpre). subst w0. cbn [heap].
    destruct (decide (p = q)) as [->|Hne].
    - rewrite lookup_insert_eq. eexists. split; [done|]. cbn. congruence.
    - rewrite lookup_insert_ne by done. eauto. }
  destruct Hq1 as (g1 & Hg1 & Hd1).
  exists w1. split.
  - unfold bind at 1. rewrite SetState_range_app. unfold bind at 1. rewrite Hrun.
    cbn [SetState_range]. unfold bind.
    by rewrite (FakeInput_not_input q v w1 g1 Hg1 Hd1).
  - eapply drives_trans; [apply _|intros; apply _| |exact Hdr].
    subst w0. cbn [heap]. by apply drives_insert.
Qed.

(** X5. Nil entries of the target list are skipped: the loop of
    [SetState] does on a list what it does on the list without its nil
    entries. *)
Theorem X5_nil_targets_are_skipped conn v w :
  SetState_range conn v w = SetState_range (filter (λ o, is_Some o) conn) v w.
Proof.
  revert w. induction conn as [|[q|] rest IH]; intros w.
  - done.
  - rewrite filter_cons_True by eauto. cbn [SetState_range].
    apply bind_ext. intros _ s'. apply IH.
  - rewrite filter_cons_False by (by intros [? [=]]). apply IH.
Qed.

(** X6. The last drive wins: driving an output to [v1] and then to [v2]
    leaves the pins as driving it to [v2] alone does (the log is longer). *)
Theorem X6_last_drive_wins p conn v1 v2 w :
  wired w p conn →
  ∃ w1 w2 w2',
    SetState (Some p) v1 w = Ret None w1
    ∧ SetState (Some p) v2 w1 = Ret None w2
    ∧ SetState (Some p) v2 w = Ret None w2'
    ∧ heap w2 = heap w2'.
Proof.
  intros Hw.
  destruct (SetState_wired p conn v1 w Hw) as (w1 & Hs1 & Hw1 & Hd1 & _).
  destruct (SetState_wired p conn v2 w1 Hw1) as (w2 & Hs2 & _ & Hd2 & _).
  destruct (SetState_wired p conn v2 w Hw) as (w2' & Hs2' & _ & Hd2' & _).
  exists w1, w2, w2'. split_and!; [done..|].
  apply map_eq. intros x.
  destruct (Hd1 x) as [H1y H1n], (Hd2 x) as [H2y H2n], (Hd2' x) as [H3y H3n].
  destruct (decide (x = p ∨ Some x ∈ conn)) as [HX|HX].
  - rewrite (H2y HX), (H1y HX), (H3y HX). by destruct (heap w !! x).
  - by rewrite (H2n HX), (H1n HX), (H3n HX).
Qed.

(** The loop of [SetState] returns or panics, and has changed values
    only. *)
Lemma SetState_range_skeleton conn v : ∀ w,
  allocated w conn →
  ∃ w', state_after (SetState_range conn v w) = Some w'
        ∧ ∀ x, skeleton <$> heap w' !! x = skeleton <$> heap w !! x.
Proof.
  induction conn as [|[q|] rest IH]; intros w Hal.
  - by exists w.
  - destruct (Hal q) as [g Hq]; [left|]. cbn [SetState_range]. unfold bind.
    destruct (decide (dir g = IN)) as [Hd|Hd].
    + destruct (FakeInput_input q v w g Hq Hd) as [line ->].
      set (w1 := mkWorld _ _).
      destruct (IH w1) as (w' & Hst & Hsk).
      { apply (allocated_insert q _ _ _ (logged w)).
        intros x Hx. apply Hal. by right. }
      exists w'. split; [done|]. intros x. rewrite Hsk. subst w1. cbn [heap].
      destruct (decide (q = x)) as [->|Hne].
      * by rewrite lookup_insert_eq, Hq.
      * by rewrite lookup_insert_ne.
    + rewrite (FakeInput_not_input q v w g Hq Hd). by exists w.
  - apply IH. intros x Hx. apply Hal. by right.
Qed.

(** X7. Whether it returns or panics, [SetState] changes values only:
    every pin has the name, direction, logger and wiring it had, and no
    pin has appeared or gone. *)
Theorem X7_SetState_changes_values_only p v w g :
  heap w !! p = Some g → allocated w (targets g) →
  ∃ w', state_after (SetState (Some p) v w) = Some w'
        ∧ ∀ x, skeleton <$> heap w' !! x = skeleton <$> heap w !! x.
Proof.
  intros Hp Hal. destruct (decide (dir g = OUT)) as [Hd|Hd].
  - destruct (SetState_output p v w g Hp Hd) as [line ->].
    set (w0 := mkWorld _ _).
    destruct (SetState_range_skeleton (targets g) v w0) as (w' & Hst & Hsk).
    { by apply (allocated_insert p _ _ _ (logged w)). }
    exists w'. split.
    + unfold bind. by destruct (SetState_range (targets g) v w0).
    + intros x. rewrite Hsk. subst w0. cbn [heap].
      destruct (decide (p = x)) as [->|Hne].
      * by rewrite lookup_insert_eq, Hp.
      * by rewrite lookup_insert_ne.
  - exists w. split; [|done]. unfold SetState, bind, deref. rewrite Hp.
    by destruct (Z.eqb_spec (dir g) OUT).
Qed.

(** X8. [ConnectTo] logs one line, on the logger of the pin it is called
    on, when it is given a slice, be it empty; called without argument
    (the nil slice) it logs nothing. It does not look at the direction of
    the pin it is called on. *)
Theorem X8_ConnectTo_logs_unless_nil p conn w g :
  heap w !! p = Some g → allocated w conn →
  (∃ w', ConnectTo (Some p) None w = Ret tt w' ∧ logged w' = logged w)
  ∧ (∃ w' line, ConnectTo (Some p) (Some conn) w = Ret tt w'
                ∧ logged w' = (logged w ++ [line])%list
                ∧ printf_logger line = logger_of g).
Proof.
  intros Hp Hal. split.
  - unfold ConnectTo, bind, assign, deref. rewrite Hp. cbn [heap].
    rewrite lookup_insert_eq. cbn [with_connectedTo connectedTo].
    eexists. by split.
  - unfold ConnectTo, bind at 1, assign. rewrite Hp.
    unfold bind at 1, deref at 1. cbn [heap logged]. rewrite lookup_insert_eq.
    cbn [with_connectedTo connectedTo].
    set (w1 := mkWorld _ _).
    destruct (ConnectTo_range_Ret conn "" w1) as [names Hn].
    { by apply (allocated_insert p _ _ _ (logged w)); destruct w. }
    unfold bind. rewrite Hn. unfold log, bind, deref. subst w1. cbn [heap logged].
    rewrite lookup_insert_eq. unfold Printf. cbn [heap logged logTarget].
    eexists _, _. split_and!; [done..|]. cbn. unfold logger_of.
    by destruct (logTarget g).
Qed.

(** X9. Two outputs wired to the same input: the input reads what was
    driven last, and each output keeps its own value. *)
Theorem X9_shared_target_reads_last_drive p1 p2 a v1 v2 w :
  p1 ≠ p2 → p2 ≠ a → p1 ≠ a →
  wired w p1 [Some a] → wired w p2 [Some a] →
  ∃ w1 w2,
    SetState (Some p1) v1 w = Ret None w1
    ∧ SetState (Some p2) v2 w1 = Ret None w2
    ∧ GetState (Some a) w2 = Ret (v2, None) w2
    ∧ GetState (Some p1) w2 = Ret (v1, None) w2
    ∧ GetState (Some p2) w2 = Ret (v2, None) w2.
Proof.
  intros H12 H2a H1a Hw1 Hw2.
  destruct (SetState_wired p1 _ v1 w Hw1) as (w1 & Hs1 & Hw1' & Hd1 & Hg1 & _).
  assert (Hw2' : wired w1 p2 [Some a]).
  { destruct Hw2 as (g2 & Hp2 & Hd2 & Ht2 & Hin2).
    destruct Hw1' as (_ & _ & _ & _ & Hin1).
    exists g2. split_and!; [|done..].
    destruct (Hd1 p2) as [_ Hn]. rewrite Hn; [done|].
    intros [?|[[=]|[]%elem_of_nil]%elem_of_cons]; congruence. }
  destruct (SetState_wired p2 _ v2 w1 Hw2') as (w2 & Hs2 & _ & Hd2 & Hg2 & Hga).
  exists w1, w2. split_and!; [done|done|apply Hga; by left| |done].
  assert (Hp1 : ∃ g1, heap w1 !! p1 = Some g1 ∧ value g1 = v1).
  { unfold GetState, bind, deref, ret in Hg1.
    destruct (heap w1 !! p1) as [g1|]; [|done]. exists g1. split; congruence. }
  destruct Hp1 as (g1 & Hp1 & <-). apply GetState_Ret.
  destruct (Hd2 p1) as [_ Hn]. rewrite Hn; [done|].
  intros [?|[[=]|[]%elem_of_nil]%elem_of_cons]; congruence.
Qed.

End Driving.

(* --------------------------------------------------------------------- *)
(** *** On the benches *)
(* --------------------------------------------------------------------- *)

Lemma X1_on_bench :
  ∃ w', SetDirection (D := example_directions) (Some 1%nat) 1 bench = Ret None w'
        ∧ CheckDirection (Some 1%nat) w' = Ret (1, None) w'.
Proof.
  destruct (X1_SetDirection_CheckDirection (D := example_directions)
              1%nat 1 bench (pin "a" 0 None)) as [Hok _]; [reflexivity|].
  destruct Hok as (w' & Hs & _ & _ & Hc); [by right|].
  exists w'. split; [exact Hs|exact Hc].
Defined.

Lemma X2_on_bench :
  ∃ w1, SetDirection (D := example_directions) (Some 0%nat) 0 bench = Ret None w1
        ∧ SetState (D := example_directions) (Some 0%nat) true w1
          = Panicked "tried to set state on IN gpio" w1.
Proof.
  destruct (X2_direction_decides_next_call (D := example_directions)
              0%nat true bench (pin "p" 1 None)) as [(w1 & Hs & Hp & _) _].
  - discriminate.
  - reflexivity.
  - exists w1. split; [exact Hs|exact Hp].
Defined.

Lemma X3_on_bench :
  ∃ w', FakeInput (D := example_directions) (Some 1%nat) true bench = Ret None w'
        ∧ GetState (Some 1%nat) w' = Ret (true, None) w'.
Proof.
  destruct (X3_FakeInput_only_on_inputs (D := example_directions)
              1%nat true bench (pin "a" 0 None)) as [Hin _]; [reflexivity|].
  destruct Hin as (w' & Hf & _ & Hg); [reflexivity|].
  exists w'. split; [exact Hf|exact Hg].
Defined.

Lemma X4_on_miswired_bench :
  ∃ w', SetState (D := example_directions) (Some 0%nat) true miswired_bench
        = Panicked "tried to fake input for output gpio" w'
        ∧ value <$> heap w' !! 1%nat = Some true
        ∧ value <$> heap w' !! 2%nat = Some false.
Proof.
  destruct (X4_failed_drive_keeps_partial_effect (D := example_directions)
              0%nat 3%nat true miswired_bench
              (pin "p" 1 (Some [Some 1%nat; Some 3%nat; Some 2%nat])) (pin "q" 1 None)
              [Some 1%nat] [Some 2%nat])
    as (w' & Hp & Hd).
  - reflexivity.
  - reflexivity.
  - reflexivity.
  - intros q Hq. apply list_elem_of_singleton in Hq. injection Hq as ->.
    eexists. split; reflexivity.
  - reflexivity.
  - discriminate.
  - exists w'. split_and!; [exact Hp| |].
    + rewrite (proj1 (Hd 1%nat)); [reflexivity|].
      right. apply list_elem_of_singleton. reflexivity.
    + rewrite (proj2 (Hd 2%nat)); [reflexivity|].
      intros [Heq|Hin]; [discriminate|].
      apply list_elem_of_singleton in Hin. discriminate.
Defined.

Lemma X6_on_shared_bench :
  ∃ w1 w2 w2',
    SetState (D := example_directions) (Some 0%nat) true shared_bench = Ret None w1
    ∧ SetState (D := example_directions) (Some 0%nat) false w1 = Ret None w2
    ∧ SetState (D := example_directions) (Some 0%nat) false shared_bench = Ret None w2'
    ∧ heap w2 = heap w2'.
Proof.
  apply (X6_last_drive_wins (D := example_directions) 0%nat [Some 1%nat]).
  exists (pin "p" 1 (Some [Some 1%nat])). split_and!; [reflexivity..|].
  intros q Hq. apply list_elem_of_singleton in Hq. injection Hq as ->.
  eexists. split; reflexivity.
Defined.

Lemma X7_on_relay_bench :
  ∃ w', state_after (SetState (D := example_directions) (Some 0%nat) true relay_bench)
        = Some w'
        ∧ ∀ x, skeleton <$> heap w' !! x = skeleton <$> heap relay_bench !! x.
Proof.
  apply (X7_SetState_changes_values_only (D := example_directions)
           0%nat true relay_bench (pin "p" 1 (Some [Some 1%nat]))).
  - reflexivity.
  - intros q Hq. apply list_elem_of_singleton in Hq. injection Hq as ->.
    eexists. reflexivity.
Defined.

Lemma X8_on_bench :
  (∃ w', ConnectTo (D := example_directions) (Some 0%nat) None bench = Ret tt w'
         ∧ logged w' = logged bench)
  ∧ (∃ w' line, ConnectTo (D := example_directions) (Some 0%nat) (Some [Some 1%nat]) bench
                = Ret tt w'
                ∧ logged w' = (logged bench ++ [line])%list
                ∧ printf_logger line = logger_of (pin "p" 1 None)).
Proof.
  apply (X8_ConnectTo_logs_unless_nil (D := example_directions)
           0%nat [Some 1%nat] bench (pin "p" 1 None)).
  - reflexivity.
  - intros q Hq. apply list_elem_of_singleton in Hq. injection Hq as ->.
    eexists. reflexivity.
Defined.

Lemma X9_on_shared_bench :
  ∃ w1 w2,
    SetState (D := example_directions) (Some 0%nat) true shared_bench = Ret None w1
    ∧ SetState (D := example_directions) (Some 3%nat) false w1 = Ret None w2
    ∧ GetState (Some 1%nat) w2 = Ret (false, None) w2
    ∧ GetState (Some 0%nat) w2 = Ret (true, None) w2
    ∧ GetState (Some 3%nat) w2 = Ret (false, None) w2.
Proof.
  apply (X9_shared_target_reads_last_drive (D := example_directions)
           0%nat 3%nat 1%nat true false shared_bench); try discriminate.
  - exists (pin "p" 1 (Some [Some 1%nat])). split_and!; [reflexivity..|].
    intros q Hq. apply list_elem_of_singleton in Hq. injection Hq as ->.
    eexists. split; reflexivity.
  - exists (pin "q" 1 (Some [Some 1%nat])). split_and!; [reflexivity..|].
    intros q Hq. apply list_elem_of_singleton in Hq. injection Hq as ->.
    eexists. split; reflexivity.
Defined.

End FakeMore.

(* ===================================================================== *)
(** ** More properties of the sysfs pins *)
(* ===================================================================== *)

Module SysfsMore.

Import Sysfs SysfsRest SysfsFacts.

Section Setters.

Context {K : Type} `{Kernel K} `{Truncate K} `{D : Directions}.

Local Open Scope go_scope.

(** The shape that the three setters share. *)
Lemma write_line_runs path text (w : world K) :
  ∃ r w' evs,
    runs (let* r := os_OpenFile path [O_WRONLY; O_SYNC] perm_0666 in
          match r with
          | (_, Some e) => ret (Some e)
          | (df, None) =>
              defer (File_Close df >> ret tt)
                    (fmt_Fprintf df (text +:+ newline) >> ret None)
          end) w r evs w'
    ∧ line_written path text r evs.
Proof.
  unfold runs, line_written, bind at 1, os_OpenFile, bind at 1, call at 1.
  destruct (sys (OpenFile _ _ _) (kernel w)) as [[fdn [e|]] k1]; cbn [fst snd].
  { eexists _, _, _. split; [split_and!; reflexivity|]. left. eauto. }
  unfold ret at 1, defer, bind, fmt_Fprintf, File_Close, call, ret.
  cbn [kernel calls streams spawned].
  destruct (sys (Write _ _) k1) as [wa k2]. cbn [kernel calls streams spawned].
  destruct (sys (CloseFile _) k2) as [ca k3]. cbn [kernel calls streams spawned].
  eexists _, _, _. split; [split_and!; [reflexivity| |reflexivity..]|].
  - rewrite <- !app_assoc. reflexivity.
  - right. eauto.
Qed.

Lemma SetDirection_line (g : SysfsGPIO) (direction : Z) (w : world K) :
  ∃ r w' evs, runs (Sysfs.SetDirection (Some g) direction) w r evs w'
              ∧ line_written (attribute g "direction") (direction_word direction) r evs.
Proof.
  unfold Sysfs.SetDirection, direction_word.
  destruct (direction =? OUT); apply write_line_runs.
Qed.

Lemma SetActiveLow_line (g : SysfsGPIO) (activelow : bool) (w : world K) :
  ∃ r w' evs, runs (SetActiveLow (Some g) activelow) w r evs w'
              ∧ line_written (attribute g "active_low") (active_low_word activelow) r evs.
Proof.
  unfold SetActiveLow, active_low_word.
  destruct activelow; apply write_line_runs.
Qed.

Lemma SetEdge_line (g : SysfsGPIO) (edge : Z) (mode : string) (w : world K) :
  edge_word edge = Some mode →
  ∃ r w' evs, runs (SetEdge (Some g) edge) w r evs w'
              ∧ line_written (attribute g "edge") mode r evs.
Proof.
  intros Hmode. unfold SetEdge, edge_word in *.
  destruct (edge =? RISING); [injection Hmode as <-; apply write_line_runs|].
  destruct (edge =? FALLING); [injection Hmode as <-; apply write_line_runs|].
  destruct (edge =? BOTH); [injection Hmode as <-; apply write_line_runs|].
  destruct (edge =? NONE); [injection Hmode as <-; apply write_line_runs|done].
Qed.

Lemma line_written_writes path text r evs :
  line_written path text r evs →
  (r = None → writes evs = [(path, text +:+ newline)])
  ∧ (is_Some r → writes evs = [])
  ∧ closes evs = opens evs.
Proof.
  intros [(fdn & e & -> & ->)|(fdn & wa & ca & -> & ->)]; cbn.
  - split_and!; [done..].
  - split_and!; [done|by intros [? [=]]|done].
Qed.

(** X10. [SetDirection], [SetActiveLow] and [SetEdge] with one of the
    four modes open the attribute file, write one line (out or in, 1 or
    0, the name of the mode), close the file and return nil, whatever the
    write and the close answered. They return an error only when the file
    could not be opened, and have then written nothing. [SetDirection]
    writes in for every direction that is not [OUT]. *)
Theorem X10_setters_report_open_failure_only (g : SysfsGPIO) (direction : Z)
    (activelow : bool) (edge : Z) (mode : string) (w : world K) :
  edge_word edge = Some mode →
  (∃ r w' evs, runs (Sysfs.SetDirection (Some g) direction) w r evs w'
               ∧ line_written (attribute g "direction") (direction_word direction) r evs)
  ∧ (∃ r w' evs, runs (SetActiveLow (Some g) activelow) w r evs w'
                 ∧ line_written (attribute g "active_low") (active_low_word activelow) r evs)
  ∧ (∃ r w' evs, runs (SetEdge (Some g) edge) w r evs w'
                 ∧ line_written (attribute g "edge") mode r evs).
Proof.
  intros Hmode. split_and!.
  - apply SetDirection_line.
  - apply SetActiveLow_line.
  - by apply SetEdge_line.
Qed.

(** X11. [SetEdge] with an integer that is none of the four modes opens
    the edge file all the same, writes nothing, closes the file, and
    returns the error "Edge value invalid" (or the error of the open). *)
Theorem X11_SetEdge_refuses_other_modes (g : SysfsGPIO) (edge : Z) (w : world K) :
  edge_word edge = None →
  ∃ r w' evs,
    runs (SetEdge (Some g) edge) w r evs w'
    ∧ writes evs = []
    ∧ closes evs = opens evs
    ∧ ((∃ e, r = Some e ∧ opens evs = [])
       ∨ (r = Some (ErrorsNew "Edge value invalid") ∧ length (opens evs) = 1%nat)).
Proof.
  intros Hmode. unfold SetEdge, edge_word in *.
  destruct (edge =? RISING); [done|]. destruct (edge =? FALLING); [done|].
  destruct (edge =? BOTH); [done|]. destruct (edge =? NONE); [done|].
  unfold runs, bind at 1, os_OpenFile, bind at 1, call at 1.
  destruct (sys (OpenFile _ _ _) (kernel w)) as [[fdn [e|]] k1]; cbn [fst snd].
  { eexists _, _, _. split; [split_and!; reflexivity|].
    split_and!; [done..|]. left. eauto. }
  unfold ret at 1, defer, bind, File_Close, call, ret.
  cbn [kernel calls streams spawned].
  destruct (sys (CloseFile _) k1) as [ca k2]. cbn [kernel calls streams spawned].
  eexists _, _, _. split; [split_and!; [reflexivity| |reflexivity..]|].
  - rewrite <- !app_assoc. reflexivity.
  - split_and!; [done..|]. by right.
Qed.

End Setters.

Section Readers.

Context {K : Type} `{Kernel K} `{Truncate K} `{D : Directions}.

Local Open Scope go_scope.

Lemma File_Read_Ret (f : File) (len : nat) (w : world K) :
  File_Read (Some f) len w
  = let (ra, k) := sys (Read f len) (kernel w) in
    Ret (read_result len ra)
        (mkWorld k (calls w ++ [Event (Read f len) ra]) (streams w) (spawned w)).
Proof.
  unfold File_Read, bind, call, read_result.
  destruct (sys (Read f len) (kernel w)) as [[data [e|]] k]; cbn [fst snd]; [done|].
  by destruct (String.length (String.substring 0 len data) =? 0)%nat.
Qed.

(** The shape that [CheckDirection] and [GetEdge] share: [k] is what
    follows the read, and returns [F] of what was read. *)
Lemma read_attribute_runs {A} (path : string) (dflt : A)
    (F : string * Z * option error → A * option error)
    (k : string → Z → option error → M (world K) (A * option error)) (w : world K) :
  (∀ buf n err w', k buf n err w' = Ret (F (buf, n, err)) w') →
  ∃ r w' evs ra,
    runs (let* r := os_OpenFile path [O_RDONLY; O_SYNC] perm_0666 in
          match r with
          | (_, Some e) => ret (dflt, Some e)
          | (df, None) =>
              defer (File_Close df >> ret tt)
                    (File_Seek df 0 0 >>
                     let* r := File_Read df 16 in
                     let '(buf, n, err) := r in
                     k buf n err)
          end) w r evs w'
    ∧ attribute_read path evs ra
    ∧ match ra with
      | None => ∃ e, r = (dflt, Some e)
      | Some ra => r = F (read_result 16 ra)
      end.
Proof.
  intros Hk. unfold runs, bind at 1, os_OpenFile, bind at 1, call at 1.
  destruct (sys (OpenFile _ _ _) (kernel w)) as [[fdn [e|]] k1]; cbn [fst snd].
  { eexists _, _, _, None. split; [split_and!; reflexivity|].
    cbn. split; eauto. }
  unfold ret at 1, defer, bind at 1, File_Seek, call at 1.
  cbn [kernel calls streams spawned].
  destruct (sys (Seek _ _ _) k1) as [sa k2].
  unfold bind at 1. rewrite File_Read_Ret. cbn [kernel calls streams spawned].
  destruct (sys (Read _ _) k2) as [ra k3].
  destruct (read_result 16 ra) as [[buf n] err] eqn:Er. rewrite Hk.
  unfold bind, File_Close, call, ret. cbn [kernel calls streams spawned].
  destruct (sys (CloseFile _) k3) as [ca k4].
  eexists _, _, _, (Some ra). split; [split_and!; [reflexivity| |reflexivity..]|].
  - rewrite <- !app_assoc. reflexivity.
  - cbn. split; [eauto|by rewrite Er].
Qed.

Lemma CheckDirection_runs (g : SysfsGPIO) (w : world K) :
  ∃ r w' evs ra,
    runs (CheckDirection (Some g)) w r evs w'
    ∧ attribute_read (attribute g "direction") evs ra
    ∧ match ra with
      | None => ∃ e, r = (-1, Some e)
      | Some ra => r = direction_of (read_result 16 ra)
      end.
Proof.
  apply (read_attribute_runs (attribute g "direction") (-1) direction_of).
  intros buf n err w'. unfold direction_of.
  destruct err; [done|]. destruct (n =? 0); [done|].
  destruct (has_prefix buf 2 "in"); [done|].
  by destruct (has_prefix buf 3 "out").
Qed.

Lemma GetEdge_runs (g : SysfsGPIO) (w : world K) :
  ∃ r w' evs ra,
    runs (GetEdge (Some g)) w r evs w'
    ∧ attribute_read (attribute g "edge") evs ra
    ∧ match ra with
      | None => ∃ e, r = ("", Some e)
      | Some ra => r = edge_of (read_result 16 ra)
      end.
Proof.
  apply (read_attribute_runs (attribute g "edge") "" edge_of).
  intros buf n err w'. unfold edge_of.
  destruct err; [done|].
  destruct (has_prefix buf 4 "none"); [done|].
  destruct (has_prefix buf 4 "both"); [done|].
  destruct (has_prefix buf 6 "rising"); [done|].
  by destruct (has_prefix buf 7 "falling").
Qed.

Lemma attribute_read_facts path evs ra :
  attribute_read path evs ra →
  writes evs = []
  ∧ closes evs = opens evs
  ∧ reads evs = match ra with Some ra => [ra] | None => [] end.
Proof.
  destruct ra as [ra|]; cbn.
  - by intros (fdn & sa & ca & ->).
  - by intros (fdn & e & ->).
Qed.

(** What the read makes of an answer, for [CheckDirection]. *)
Lemma direction_of_read (ra : string * option error) :
  let r := direction_of (read_result 16 ra) in
  (snd r = None → fst r = IN ∨ fst r = OUT)
  ∧ (is_Some (snd r) → fst r = -1)
  ∧ (ra = ("", None) → r = (-1, Some EOF))
  ∧ (∀ d, ra = (direction_word d +:+ newline, None) →
          r = (if d =? OUT then OUT else IN, None)).
Proof.
  destruct ra as [data [e|]]; unfold direction_of, read_result; cbn [fst snd].
  { split_and!; [done|done|done|]. by intros d [=]. }
  split_and!.
  - destruct (String.length _ =? 0)%nat; [done|].
    destruct (_ =? 0); [done|].
    destruct (has_prefix _ 2 "in"); [by left|].
    destruct (has_prefix _ 3 "out"); [by right|done].
  - destruct (String.length _ =? 0)%nat; [done|].
    destruct (_ =? 0); [done|].
    destruct (has_prefix _ 2 "in"); [by intros [? [=]]|].
    destruct (has_prefix _ 3 "out"); [by intros [? [=]]|done].
  - by intros [= ->].
  - intros d [= ->]. unfold direction_word. by destruct (d =? OUT).
Qed.

(** What the read makes of an answer, for [GetEdge]. *)
Lemma edge_of_read (ra : string * option error) :
  let r := edge_of (read_result 16 ra) in
  (snd r = None → fst r ∈ ["none"; "both"; "rising"; "falling"])
  ∧ (is_Some (snd r) → fst r = "")
  ∧ (ra = ("", None) → r = ("", Some EOF))
  ∧ (∀ edge mode, edge_word edge = Some mode → ra = (mode +:+ newline, None) →
                  r = (mode, None)).
Proof.
  destruct ra as [data [e|]]; unfold edge_of, read_result; cbn [fst snd].
  { split_and!; [done|done|done|]. by intros edge mode _ [=]. }
  split_and!.
  - destruct (String.length _ =? 0)%nat; [done|].
    destruct (has_prefix _ 4 "none"); [intros _; set_solver|].
    destruct (has_prefix _ 4 "both"); [intros _; set_solver|].
    destruct (has_prefix _ 6 "rising"); [intros _; set_solver|].
    destruct (has_prefix _ 7 "falling"); [intros _; set_solver|done].
  - destruct (String.length _ =? 0)%nat eqn:E0; [done|].
    assert ((Z.of_nat (String.length (String.substring 0 16 data)) =? 0) = false) as ->.
    { apply Z.eqb_neq. apply Nat.eqb_neq in E0. lia. }
    destruct (has_prefix _ 4 "none"); [by intros [? [=]]|].
    destruct (has_prefix _ 4 "both"); [by intros [? [=]]|].
    destruct (has_prefix _ 6 "rising"); [by intros [? [=]]|].
    destruct (has_prefix _ 7 "falling"); [by intros [? [=]]|done].
  - by intros [= ->].
  - intros edge mode Hmode [= ->]. unfold edge_word in Hmode.
    destruct (edge =? RISING); [by injection Hmode as <-|].
    destruct (edge =? FALLING); [by injection Hmode as <-|].
    destruct (edge =? BOTH); [by injection Hmode as <-|].
    destruct (edge =? NONE); [by injection Hmode as <-|done].
Qed.

(** X12. [CheckDirection] returns a direction or an error, never both
    and never neither: with a nil error the direction is [IN] or [OUT],
    with an error it is -1. It writes nothing and closes the file it
    opened. An empty file gives [io.EOF]. *)
Theorem X12_CheckDirection_direction_or_error (g : SysfsGPIO) (w : world K) :
  ∃ r w' evs,
    runs (CheckDirection (Some g)) w r evs w'
    ∧ (snd r = None → fst r = IN ∨ fst r = OUT)
    ∧ (is_Some (snd r) → fst r = -1)
    ∧ writes evs = []
    ∧ closes evs = opens evs
    ∧ (reads evs = [("", None)] → snd r = Some EOF).
Proof.
  destruct (CheckDirection_runs g w) as (r & w' & evs & ra & Hrun & Hev & Hr).
  destruct (attribute_read_facts _ _ _ Hev) as (Hw & Hc & Hrd).
  exists r, w', evs. split_and!; [done| | |done|done|].
  - destruct ra as [ra|]; [|by destruct Hr as [e ->]].
    subst r. apply direction_of_read.
  - destruct ra as [ra|]; [|by destruct Hr as [e ->]].
    subst r. apply direction_of_read.
  - rewrite Hrd. destruct ra as [ra|]; [|done]. intros [= ->]. subst r.
    by destruct (direction_of_read ("", None)) as (_ & _ & -> & _).
Qed.

(** X13. [GetEdge] returns a mode or an error: with a nil error the mode
    is one of none, both, rising and falling, with an error it is the
    empty string. It writes nothing and closes the file it opened. An
    empty file gives [io.EOF]: the error "Edge file is empty" of the
    source is never returned for it. *)
Theorem X13_GetEdge_mode_or_error (g : SysfsGPIO) (w : world K) :
  ∃ r w' evs,
    runs (GetEdge (Some g)) w r evs w'
    ∧ (snd r = None → fst r ∈ ["none"; "both"; "rising"; "falling"])
    ∧ (is_Some (snd r) → fst r = "")
    ∧ writes evs = []
    ∧ closes evs = opens evs
    ∧ (reads evs = [("", None)] → snd r = Some EOF).
Proof.
  destruct (GetEdge_runs g w) as (r & w' & evs & ra & Hrun & Hev & Hr).
  destruct (attribute_read_facts _ _ _ Hev) as (Hw & Hc & Hrd).
  exists r, w', evs. split_and!; [done| | |done|done|].
  - destruct ra as [ra|]; [|by destruct Hr as [e ->]].
    subst r. apply edge_of_read.
  - destruct ra as [ra|]; [|by destruct Hr as [e ->]].
    subst r. apply edge_of_read.
  - rewrite Hrd. destruct ra as [ra|]; [|done]. intros [= ->]. subst r.
    by destruct (edge_of_read ("", None)) as (_ & _ & -> & _).
Qed.

(** X14. What [SetDirection] writes, [CheckDirection] reads back: the
    line written is out for [OUT] and in for every other direction, and
    when the read of the direction file returns that line,
    [CheckDirection] returns [OUT] for the first and [IN] for the second,
    with a nil error. So a direction that is [IN] or [OUT] comes back as
    it was set. *)
Theorem X14_direction_round_trip (g : SysfsGPIO) (direction : Z) (w w2 : world K) :
  let line := direction_word direction +:+ newline in
  (∃ r w' evs,
     runs (Sysfs.SetDirection (Some g) direction) w r evs w'
     ∧ (r = None → writes evs = [(attribute g "direction", line)]))
  ∧ (∃ r w' evs,
       runs (CheckDirection (Some g)) w2 r evs w'
       ∧ (reads evs = [(line, None)] →
          r = (if direction =? OUT then OUT else IN, None)
          ∧ (direction = IN ∨ direction = OUT → fst r = direction))).
Proof.
  intros line. split.
  - destruct (SetDirection_line g direction w) as (r & w' & evs & Hrun & Hl).
    exists r, w', evs. split; [done|]. by apply line_written_writes in Hl as [? _].
  - destruct (CheckDirection_runs g w2) as (r & w' & evs & ra & Hrun & Hev & Hr).
    destruct (attribute_read_facts _ _ _ Hev) as (_ & _ & Hrd).
    exists r, w', evs. split; [done|]. rewrite Hrd.
    destruct ra as [ra|]; [|done]. intros [= ->]. subst r.
    destruct (direction_of_read (line, None)) as (_ & _ & _ & Hd).
    rewrite (Hd direction eq_refl). split; [done|].
    intros [-> | ->]; cbn [fst]; [|by rewrite Z.eqb_refl].
    by destruct (Z.eqb_spec IN OUT).
Qed.

(** X15. What [SetEdge] writes, [GetEdge] reads back: for each of the
    four modes the line written is the name of the mode, and when the
    read of the edge file returns that line, [GetEdge] returns the name
    with a nil error. *)
Theorem X15_edge_round_trip (g : SysfsGPIO) (edge : Z) (mode : string)
    (w w2 : world K) :
  edge_word edge = Some mode →
  (∃ r w' evs,
     runs (SetEdge (Some g) edge) w r evs w'
     ∧ (r = None → writes evs = [(attribute g "edge", mode +:+ newline)]))
  ∧ (∃ r w' evs,
       runs (GetEdge (Some g)) w2 r evs w'
       ∧ (reads evs = [(mode +:+ newline, None)] → r = (mode, None))).
Proof.
  intros Hmode. split.
  - destruct (SetEdge_line g edge mode w Hmode) as (r & w' & evs & Hrun & Hl).
    exists r, w', evs. split; [done|]. by apply line_written_writes in Hl as [? _].
  - destruct (GetEdge_runs g w2) as (r & w' & evs & ra & Hrun & Hev & Hr).
    destruct (attribute_read_facts _ _ _ Hev) as (_ & _ & Hrd).
    exists r, w', evs. split; [done|]. rewrite Hrd.
    destruct ra as [ra|]; [|done]. intros [= ->]. subst r.
    destruct (edge_of_read (mode +:+ newline, None)) as (_ & _ & _ & Hd).
    by apply (Hd edge).
Qed.

Lemma edge_word_none (edge : Z) (mode : string) :
  edge_word edge = Some mode → (edge =? NONE) = String.eqb mode "none".
Proof.
  unfold edge_word.
  destruct (Z.eqb_spec edge RISING) as [->|_]; [by intros [= <-]|].
  destruct (Z.eqb_spec edge FALLING) as [->|_]; [by intros [= <-]|].
  destruct (Z.eqb_spec edge BOTH) as [->|_]; [by intros [= <-]|].
  destruct (Z.eqb_spec edge NONE) as [->|_]; [by intros [= <-]|done].
Qed.

(** X16. What [SetEdge] wrote decides what [SetEdgeCallback] does next:
    when its read of the edge file returns the line that [SetEdge NONE]
    writes, it returns the error and starts no goroutine; when the read
    returns the line of one of the three other modes, it returns nil and
    has started one goroutine. *)
Theorem X16_SetEdge_arms_SetEdgeCallback (g : SysfsGPIO) (callback : option chan)
    (timeout : Z) (edge : Z) (mode : string) (w : world K) :
  edge_word edge = Some mode →
  ∃ r w' evs,
    SetEdgeCallback (Some g) callback timeout w = Ret r w'
    ∧ calls w' = (calls w ++ evs)%list
    ∧ (reads evs = [(mode +:+ newline, None)] →
       if edge =? NONE
       then r = Some (ErrorsNew "Edge value is set to NONE") ∧ spawned w' = spawned w
       else r = None ∧ spawned w' = (spawned w ++ [mkTask g callback timeout])%list).
Proof.
  intros Hmode. rewrite (edge_word_none edge mode Hmode).
  destruct (GetEdge_runs g w) as (r & w1 & evs & ra & (Hrun & Hc & _ & Hsp) & Hev & Hr).
  destruct (attribute_read_facts _ _ _ Hev) as (_ & _ & Hrd).
  unfold SetEdgeCallback, bind at 1. rewrite Hrun.
  destruct ra as [ra|].
  - destruct (edge_of_read ra) as (_ & _ & _ & Hback). rewrite <- Hr in Hback.
    destruct r as [name [e|]].
    + exists (Some e), w1, evs. split_and!; [done..|]. rewrite Hrd.
      intros [= ->]. by specialize (Hback edge mode Hmode eq_refl).
    + destruct (String.eqb name "none") eqn:Ename.
      * exists (Some (ErrorsNew "Edge value is set to NONE")), w1, evs.
        split_and!; [done..|]. rewrite Hrd. intros [= ->].
        specialize (Hback edge mode Hmode eq_refl). injection Hback as ->.
        by rewrite Ename.
      * eexists None, _, evs. unfold bind, go, ret. split_and!; [done..|].
        cbn [spawned]. rewrite Hrd. intros [= ->].
        specialize (Hback edge mode Hmode eq_refl). injection Hback as ->.
        by rewrite Ename, Hsp.
  - destruct Hr as [e ->]. exists (Some e), w1, evs. split_and!; [done..|].
    by rewrite Hrd.
Qed.

Lemma GetState_runs (g : SysfsGPIO) (f : File) (w : world K) :
  fd g = Some f →
  ∃ r w' sa ra,
    runs (GetState (Some g)) w r [Event (Seek f 0 0) sa; Event (Read f 16) ra] w'
    ∧ r = state_of (read_result 16 ra).
Proof.
  intros Hfd. unfold runs, GetState. rewrite Hfd.
  unfold bind at 1, File_Seek, call at 1.
  destruct (sys (Seek _ _ _) (kernel w)) as [sa k1].
  unfold bind at 1. rewrite File_Read_Ret. cbn [kernel calls streams spawned].
  destruct (sys (Read _ _) k1) as [ra k2].
  assert (Hfin : ∀ r, r = state_of (read_result 16 ra) →
            ∃ r' w' sa' ra',
              (Ret r (mkWorld k2 ((calls w ++ [Event (Seek f 0 0) sa])
                                  ++ [Event (Read f 16) ra]) (streams w) (spawned w))
               = Ret r' w'
               ∧ calls w' = (calls w ++ [Event (Seek f 0 0) sa'; Event (Read f 16) ra'])%list
               ∧ streams w' = streams w ∧ spawned w' = spawned w)
              ∧ r' = state_of (read_result 16 ra')).
  { intros r ->. eexists _, _, sa, ra.
    split; [split_and!; [reflexivity| |reflexivity..]|done].
    by rewrite <- app_assoc. }
  unfold state_of in Hfin.
  destruct (read_result 16 ra) as [[buf n] [e|]]; [by apply Hfin|].
  destruct (negb (n =? 2)); [by apply Hfin|].
  case_bool_decide; by apply Hfin.
Qed.

Lemma get_substring_append (data z : string) :
  String.length (String.substring 0 16 data) ≠ 0%nat →
  String.get 0 (String.substring 0 16 data +:+ z) = String.get 0 data.
Proof. by destruct data. Qed.

(** What the read makes of an answer, for [GetState]. *)
Lemma state_of_read (ra : string * option error) :
  let r := state_of (read_result 16 ra) in
  (is_Some (snd r) ↔ read_fails ra)
  ∧ (fst r = true ↔ ¬ read_fails ra ∧ String.get 0 (fst ra) = Some "1"%char)
  ∧ (∀ state, ra = (value_word state +:+ newline, None) → r = (state, None)).
Proof.
  destruct ra as [data [e|]]; unfold state_of, read_result, read_fails; cbn [fst snd].
  { split_and!; [split; eauto| |by intros state [=]].
    split; [done|]. intros [Hn _]. destruct Hn. eauto. }
  set (d := String.substring 0 16 data).
  destruct (String.length d =? 0)%nat eqn:E0.
  { apply Nat.eqb_eq in E0. cbn [fst snd]. split_and!.
    - split; [intros _; right; lia|eauto].
    - split; [done|]. intros [Hn _]. destruct Hn. right. lia.
    - intros state [= ->]. by destruct state. }
  apply Nat.eqb_neq in E0.
  destruct (Z.eqb_spec (Z.of_nat (String.length d)) 2) as [E2|E2]; cbn [negb fst snd].
  - subst d. rewrite get_substring_append by done.
    case_bool_decide as Hget; cbn [fst snd].
    + split_and!.
      * split; [by intros [? [=]]|]. intros [[? [=]]|Hn]. lia.
      * split; [|done]. intros _. split; [|done]. intros [[? [=]]|Hn]. lia.
      * intros state [= ->]. by destruct state.
    + split_and!.
      * split; [by intros [? [=]]|]. intros [[? [=]]|Hn]. lia.
      * split; [done|]. by intros [_ ?].
      * intros state [= ->]. by destruct state.
  - cbn [fst snd]. split_and!.
    + split; [intros _; right; lia|eauto].
    + split; [done|]. intros [Hn _]. destruct Hn. right. lia.
    + intros state [= ->]. by destruct state.
Qed.

Lemma SetState_runs (g : SysfsGPIO) (f : File) (state : bool) (w : world K) :
  fd g = Some f →
  let line := value_word state +:+ newline in
  ∃ ta k1 wa k2,
    sys_truncate f 0 (kernel w) = (ta, k1)
    ∧ sys (Write f line) k1 = (wa, k2)
    ∧ SetState (Some g) state w
      = Ret (snd wa) (mkWorld k2 (calls w ++ [Event (Write f line) wa])
                              (streams w) (spawned w)).
Proof.
  intros Hfd line. unfold SetState. rewrite Hfd.
  unfold bind at 1, File_Truncate.
  destruct (sys_truncate f 0 (kernel w)) as [ta k1].
  unfold bind, fmt_Fprintln, fmt_Fprintf, call, ret. cbn [kernel calls streams spawned].
  subst line. unfold value_word.
  destruct (sys (Write f _) k1) as [wa k2] eqn:Ew.
  exists ta, k1, wa, k2. by destruct state.
Qed.

(** X17. What [SetState] writes, [GetState] reads back. [SetState]
    truncates the value file, then writes 1 or 0 and a newline in one
    write, and returns the error of that write (the answer to the
    truncation is dropped); [SetStateNow] does the same. When the read of
    [GetState] returns that line, [GetState] returns the state that was
    set, with a nil error. *)
Theorem X17_value_round_trip (g : SysfsGPIO) (f : File) (state : bool)
    (w w2 : world K) :
  fd g = Some f →
  let line := value_word state +:+ newline in
  (∃ r w' wa,
     runs (SetState (Some g) state) w r [Event (Write f line) wa] w'
     ∧ r = snd wa
     ∧ (wa, kernel w') = sys (Write f line) (snd (sys_truncate f 0 (kernel w)))
     ∧ SetStateNow (Some g) state w = Ret r w')
  ∧ (∃ r w' evs,
       runs (GetState (Some g)) w2 r evs w'
       ∧ (reads evs = [(line, None)] → r = (state, None))).
Proof.
  intros Hfd line. split.
  - destruct (SetState_runs g f state w Hfd) as (ta & k1 & wa & k2 & Et & Ew & Hrun).
    eexists _, _, wa. split; [split_and!; [exact Hrun|reflexivity..]|].
    split_and!; [done| |exact Hrun]. cbn [kernel]. rewrite Et. cbn [snd].
    subst line. by rewrite Ew.
  - destruct (GetState_runs g f w2 Hfd) as (r & w' & sa & ra & Hrun & ->).
    eexists _, w', _. split; [exact Hrun|]. cbn. intros [= ->].
    by apply state_of_read.
Qed.

(** X18. The verdict of [GetState] rests on its read alone. It seeks and
    reads once; whatever the seek answered, an error included, it
    returns an error exactly when the read failed or did not give two
    bytes, and it returns true exactly when the read gave two bytes the
    first of which is the character 1. *)
Theorem X18_GetState_verdict (g : SysfsGPIO) (f : File) (w : world K) :
  fd g = Some f →
  ∃ r w' sa ra,
    runs (GetState (Some g)) w r [Event (Seek f 0 0) sa; Event (Read f 16) ra] w'
    ∧ (is_Some (snd r) ↔ read_fails ra)
    ∧ (fst r = true ↔ ¬ read_fails ra ∧ String.get 0 (fst ra) = Some "1"%char).
Proof.
  intros Hfd.
  destruct (GetState_runs g f w Hfd) as (r & w' & sa & ra & Hrun & ->).
  eexists _, w', sa, ra. split; [exact Hrun|].
  destruct (state_of_read ra) as (? & ? & _). by split.
Qed.

End Readers.

Section Handles.

Context {K : Type} `{Kernel K} `{Truncate K} `{D : Directions}.

Local Open Scope go_scope.

Lemma enable_export_runs (g : SysfsGPIO) (w : world K) :
  ∃ r w' evs, runs (enable_export (Some g)) w r evs w' ∧ exporting g r evs.
Proof.
  unfold runs, exporting, enable_export, os_Stat, bind at 1, call at 1.
  destruct (sys (Stat _) (kernel w)) as [[e|] k1]; cbn [fst snd].
  2:{ eexists _, _, _. split; [split_and!; reflexivity|]. by left. }
  destruct (os_IsNotExist e) eqn:Ene; cbn [negb].
  2:{ eexists _, _, _. split; [split_and!; reflexivity|]. right. left. eauto. }
  unfold bind at 1, os_OpenFile, bind at 1, call at 1. cbn [kernel calls streams spawned].
  destruct (sys (OpenFile _ _ _) k1) as [[fdn [eo|]] k2]; cbn [fst snd].
  { eexists _, _, _. split; [split_and!; [reflexivity| |reflexivity..]|].
    - rewrite <- !app_assoc. reflexivity.
    - right. right. left. eauto 10. }
  unfold ret at 1, bind at 1, fmt_Fprintf, call at 1. cbn [kernel calls streams spawned].
  destruct (sys (Write _ _) k2) as [wa k3].
  eexists _, _, _. split; [split_and!; [reflexivity| |reflexivity..]|].
  - rewrite <- !app_assoc. reflexivity.
  - right. right. right. eauto 10.
Qed.

(** X19. [enable_export] closes nothing. Whenever it has written the pin
    number, it has opened the export file for that and left it open;
    the files it opens are the export file only. *)
Theorem X19_enable_export_leaves_export_open (g : SysfsGPIO) (w : world K) :
  ∃ r w' evs,
    runs (enable_export (Some g)) w r evs w'
    ∧ closes evs = []
    ∧ (∀ f, f ∈ opens evs → Name f = "/sys/class/gpio/export")
    ∧ (writes evs ≠ [] → ∃ fdn, opens evs = [mkFile "/sys/class/gpio/export" fdn]).
Proof.
  destruct (enable_export_runs g w) as (r & w' & evs & Hrun & Hsh).
  exists r, w', evs. split; [done|].
  destruct Hsh as [[-> _]|[(e & -> & _)|[(e & fdn & eo & -> & _)|(e & fdn & wa & -> & _)]]];
    cbn; split_and!; try done; try (by intros ? ?%elem_of_nil).
  - intros f' ->%list_elem_of_singleton. done.
  - intros _. eauto.
Qed.

Lemma os_OpenFile_runs name flag perm (w : world K) :
  ∃ oa w',
    runs (os_OpenFile name flag perm) w
         (match snd oa with
          | None => (Some (mkFile name (fst oa)), None)
          | Some e => (None, Some e)
          end)
         [Event (OpenFile name flag perm) oa] w'.
Proof.
  unfold runs, os_OpenFile, bind, call.
  destruct (sys (OpenFile _ _ _) (kernel w)) as [[fdn [e|]] k1].
  - by eexists (fdn, Some e), _.
  - by eexists (fdn, None), _.
Qed.

(** X20. [NewSysfsGPIO] returns a handle or an error, never both and
    never neither. The handle has the number asked for and an open value
    file, which is the last file opened. Its writes are, in this order
    and each at most once, the pin number to the export file and the
    direction to the direction file. *)
Theorem X20_NewSysfsGPIO_handle_or_error (number : N) (direction : Z) (w : world K) :
  let g0 := mkSysfsGPIO number None in
  ∃ r w' evs,
    runs (NewSysfsGPIO number direction) w r evs w'
    ∧ (snd r = None →
       ∃ fdn, fst r = Some (mkSysfsGPIO number (Some (mkFile (attribute g0 "value") fdn)))
              ∧ last (opens evs) = Some (mkFile (attribute g0 "value") fdn))
    ∧ (is_Some (snd r) → fst r = None)
    ∧ sublist (writes evs)
              [("/sys/class/gpio/export", pretty number +:+ newline);
               (attribute g0 "direction", direction_word direction +:+ newline)].
Proof.
  intros g0.
  destruct (enable_export_runs g0 w) as (r1 & w1 & e1 & (Hr1 & Hc1 & Hs1 & Hp1) & Hsh).
  assert (Hw1 : sublist (writes e1) [("/sys/class/gpio/export", pretty number +:+ newline)]
                ∧ (r1 = None → opens e1 = [] ∨ ∃ fdn, opens e1 = [mkFile "/sys/class/gpio/export" fdn])).
  { destruct Hsh as [[-> _]|[(e & -> & _)|[(e & fdn & eo & -> & _)|(e & fdn & wa & -> & _)]]];
      cbn; (split; [|eauto]); try apply sublist_nil_l. done. }
  destruct Hw1 as [Hw1 _].
  unfold runs, NewSysfsGPIO. fold g0. unfold bind at 1. rewrite Hr1.
  destruct r1 as [e|].
  { eexists _, w1, e1. split; [by split_and!|]. split_and!; [done|done|].
    etrans; [exact Hw1|]. apply sublist_skip, sublist_nil_l. }
  destruct (SetDirection_line g0 direction w1)
    as (r2 & w2 & e2 & (Hr2 & Hc2 & Hs2 & Hp2) & Hl).
  destruct (line_written_writes _ _ _ _ Hl) as (Hwn & Hws & _).
  assert (Hw2 : sublist (writes e2)
                  [(attribute g0 "direction", direction_word direction +:+ newline)]).
  { destruct r2; [rewrite Hws by eauto; apply sublist_nil_l|by rewrite Hwn]. }
  assert (Hw12 : sublist (writes (e1 ++ e2))
                   [("/sys/class/gpio/export", pretty number +:+ newline);
                    (attribute g0 "direction", direction_word direction +:+ newline)]).
  { unfold writes. rewrite omap_app. by apply (sublist_app _ [_] _ [_]). }
  unfold bind at 1. rewrite Hr2.
  destruct r2 as [e|].
  { eexists _, w2, (e1 ++ e2)%list. split; [split_and!; [reflexivity| |congruence..]|].
    - by rewrite Hc2, Hc1, app_assoc.
    - by split_and!. }
  destruct (os_OpenFile_runs (attribute g0 "value") [O_RDWR; O_SYNC] perm_0666 w2)
    as ([fdn oe] & w3 & Hr3 & Hc3 & Hs3 & Hp3).
  unfold bind. change ("/sys/class/gpio/gpio" +:+ pretty number +:+ "/value")
    with (attribute g0 "value"). rewrite Hr3. cbn [snd fst].
  assert (Hcalls : calls w3 = (calls w ++ (e1 ++ e2) ++ [Event (OpenFile (attribute g0 "value") [O_RDWR; O_SYNC] perm_0666) (fdn, oe)])%list).
  { by rewrite Hc3, Hc2, Hc1, <- !app_assoc. }
  assert (Hwr : writes ((e1 ++ e2) ++ [Event (OpenFile (attribute g0 "value") [O_RDWR; O_SYNC] perm_0666) (fdn, oe)]) = writes (e1 ++ e2)).
  { unfold writes. rewrite (omap_app _ (e1 ++ e2)). cbn. by rewrite app_nil_r. }
  destruct oe as [e|].
  - eexists _, w3, _. split; [split_and!; [reflexivity|exact Hcalls|congruence..]|].
    split_and!; [done|done|by rewrite Hwr].
  - eexists _, w3, _. split; [split_and!; [reflexivity|exact Hcalls|congruence..]|].
    split_and!; [|by intros [? [=]]|by rewrite Hwr].
    intros _. exists fdn. split; [done|].
    unfold opens. rewrite (omap_app _ (e1 ++ e2)). cbn. by rewrite last_snoc.
Qed.

(** X21. [ReOpen] on a nil handle, or on a handle without a value file,
    returns the error "gpio is nil" and does not panic. On a handle with
    a value file it opens the same name anew; if that fails, the handle
    is left without a value file, the old descriptor has not been closed,
    and the next [GetState] panics; if it succeeds, the handle has the
    new file and the old one is closed after the new one was opened. *)
Theorem X21_ReOpen_failure_loses_the_file (g : SysfsGPIO) (f : File) (w : world K) :
  fd g = Some f →
  ReOpen None w = Ret (None, Some (ErrorsNew "gpio is nil")) w
  ∧ ReOpen (Some (mkSysfsGPIO (Number g) None)) w
    = Ret (Some (mkSysfsGPIO (Number g) None), Some (ErrorsNew "gpio is nil")) w
  ∧ ∃ r w' evs,
      runs (ReOpen (Some g)) w r evs w'
      ∧ ((∃ fdn e,
            evs = [Event (OpenFile (Name f) [O_RDWR; O_SYNC] perm_0666) (fdn, Some e)]
            ∧ r = (Some (mkSysfsGPIO (Number g) None), Some e)
            ∧ GetState (fst r) w' = Panicked "gpio.fd == nil" w')
         ∨ (∃ fdn ca,
              evs = [Event (OpenFile (Name f) [O_RDWR; O_SYNC] perm_0666) (fdn, None);
                     Event (CloseFile f) ca]
              ∧ r = (Some (mkSysfsGPIO (Number g) (Some (mkFile (Name f) fdn))), None))).
Proof.
  intros Hfd. split_and!; [done|done|].
  unfold runs, ReOpen. rewrite Hfd.
  destruct (os_OpenFile_runs (Name f) [O_RDWR; O_SYNC] perm_0666 w)
    as ([fdn oe] & w1 & Hr1 & Hc1 & Hs1 & Hp1).
  unfold bind at 1. rewrite Hr1. cbn [fst snd].
  destruct oe as [e|]; cbn [fst snd].
  - eexists _, w1, _. split; [by split_and!|]. left. eauto.
  - unfold bind, File_Close, call, ret.
    destruct (sys (CloseFile f) (kernel w1)) as [ca k2].
    eexists _, _, _. split; [split_and!; [reflexivity| |done..]|].
    + cbn [calls]. by rewrite Hc1, <- app_assoc.
    + right. eauto.
Qed.

End Handles.

Section Monitoring.

Context {K : Type} `{Kernel K} `{Truncate K} `{D : Directions}.

Local Open Scope go_scope.

(** One round of the goroutine, whatever the channel: it breaks, or it
    comes to the send with a state read; the streams are as before up to
    there. *)
Lemma monitor_round_split (g : SysfsGPIO) (f : File) (callback : option chan)
    (timeout : Z) (w : world K) :
  fd g = Some f →
  ∃ w2, streams w2 = streams w
        ∧ (monitor_round g callback timeout w = Ret false w2
           ∨ ∃ state, monitor_round g callback timeout w
                      = (send callback state >> ret true) w2).
Proof.
  intros Hfd.
  destruct (GetState_answer g f w Hfd) as (sr & rr & k1 & ds & de & Eg1 & _).
  set (w1 := mkWorld k1 _ _ _) in Eg1.
  set (fds := [mkPollFd (int32 (Fd f)) POLLPRI]).
  destruct (sys (Poll fds timeout) k1) as [pr k2] eqn:Ep.
  set (w2 := mkWorld k2 (calls w1 ++ [Event (Poll fds timeout) pr]) (streams w) (spawned w)).
  assert (Ep' : unix_Poll fds timeout w1 = Ret pr w2).
  { unfold unix_Poll, call. subst w1. cbn [kernel calls streams spawned]. by rewrite Ep. }
  assert (Hround : monitor_round g callback timeout w
                   = match snd pr with
                     | Some _ => Ret false w2
                     | None =>
                         (let* r := GetState (Some g) in
                          let '(state, err) := r in
                          match err with
                          | Some _ => ret false
                          | None => send callback state >> ret true
                          end) w2
                     end).
  { unfold monitor_round, bind at 1. rewrite Eg1, Hfd. cbn [File_Fd]. fold fds.
    unfold bind at 1. rewrite Ep'. by destruct (snd pr). }
  rewrite Hround. clear Hround.
  destruct (snd pr) as [ep|]; [exists w2; split; [done|by left]|].
  destruct (GetState_answer g f w2 Hfd) as (sr' & rr' & k3 & state & err & Eg2 & _).
  set (w3 := mkWorld k3 _ _ _) in Eg2.
  exists w3. split; [done|].
  assert (Hstep : (let* r := GetState (Some g) in
                   let '(state, err) := r in
                   match err with
                   | Some _ => ret false
                   | None => send callback state >> ret true
                   end) w2
                  = match err with
                    | Some _ => Ret false w3
                    | None => (send callback state >> ret true) w3
                    end).
  { unfold bind at 1. rewrite Eg2. by destruct err. }
  rewrite Hstep. destruct err; [by left|right; by exists state].
Qed.

(** X23. When the reader has closed the channel itself, the goroutine
    ends in the panic of the deferred [close] on a closed channel,
    whatever the kernel answers: also when it leaves the loop by [break].
    Nothing is delivered. *)
Theorem X23_monitor_on_closed_channel_panics (g : SysfsGPIO) (f : File) (id : nat)
    (timeout : Z) (rounds : nat) (w : world K) (st : stream) :
  fd g = Some f → streams w !! id = Some st → closed st = true →
  ∃ w', monitor (S rounds) g (Some (Chan id)) timeout w
        = Panicked "close of closed channel" w'
        ∧ streams w' = streams w.
Proof.
  intros Hfd Hst Hcl.
  destruct (monitor_round_split g f (Some (Chan id)) timeout w Hfd)
    as (w2 & Hs2 & [Hr|[state Hr]]);
    exists w2; (split; [|done]);
    unfold monitor, defer; cbn [monitor_loop]; unfold bind at 1; rewrite Hr.
  - unfold ret, close. rewrite Hs2, Hst. cbn beta iota. by rewrite Hcl.
  - unfold bind, send, close. rewrite Hs2, Hst. cbn beta iota. rewrite Hcl.
    rewrite Hs2, Hst. cbn beta iota. by rewrite Hcl.
Qed.

(** X24. With a nil channel the goroutine never comes to a normal end:
    it stays blocked in the send, or it leaves the loop by [break] and
    the deferred [close] panics. *)
Theorem X24_monitor_on_nil_channel_never_returns (g : SysfsGPIO) (f : File)
    (timeout : Z) (rounds : nat) (w : world K) :
  fd g = Some f →
  ∃ w', streams w' = streams w
        ∧ (monitor rounds g (Some NilChan) timeout w = Pending w'
           ∨ monitor rounds g (Some NilChan) timeout w
             = Panicked "close of nil channel" w').
Proof.
  intros Hfd. destruct rounds as [|rounds].
  { exists w. split; [done|by left]. }
  destruct (monitor_round_split g f (Some NilChan) timeout w Hfd)
    as (w2 & Hs2 & [Hr|[state Hr]]);
    exists w2; (split; [done|]); [right|left];
    unfold monitor, defer; cbn [monitor_loop]; unfold bind at 1; by rewrite Hr.
Qed.

(** X25. [SetEdgeCallback] does not look at the value file of the
    handle. On a handle without one it starts the goroutine as for any
    other when it returns nil; that goroutine panics in its first
    [GetState], having made no call, and the deferred [close] closes the
    channel with nothing delivered. *)
Theorem X25_SetEdgeCallback_without_value_file (g : SysfsGPIO) (id : nat)
    (timeout : Z) (rounds : nat) (w : world K) (st : stream) :
  fd g = None → streams w !! id = Some st → closed st = false →
  ∃ r w' evs,
    SetEdgeCallback (Some g) (Some (Chan id)) timeout w = Ret r w'
    ∧ calls w' = (calls w ++ evs)%list
    ∧ (r = None →
       spawned w' = (spawned w ++ [mkTask g (Some (Chan id)) timeout])%list
       ∧ ∃ w'', monitor (S rounds) g (Some (Chan id)) timeout w'
                = Panicked "gpio.fd == nil" w''
                ∧ calls w'' = calls w'
                ∧ streams w'' !! id = Some (mkStream (delivered st) true)).
Proof.
  intros Hfd Hst Hopen.
  assert (Hmon : ∀ w1 : world K, streams w1 = streams w →
            ∃ w'', monitor (S rounds) g (Some (Chan id)) timeout w1
                   = Panicked "gpio.fd == nil" w''
                   ∧ calls w'' = calls w1
                   ∧ streams w'' !! id = Some (mkStream (delivered st) true)).
  { intros w1 Hs1. unfold monitor, defer. cbn [monitor_loop].
    unfold bind at 1, monitor_round, bind at 1, GetState. rewrite Hfd.
    unfold panic, close. rewrite Hs1, Hst. cbn beta iota. rewrite Hopen.
    eexists. split_and!; [reflexivity|done|]. cbn [streams].
    by rewrite lookup_insert_eq. }
  destruct (GetEdge_runs g w) as (r & w1 & evs & ra & (Hrun & Hc & Hs & Hsp) & _ & _).
  unfold SetEdgeCallback, bind at 1. rewrite Hrun.
  destruct r as [name [e|]].
  { exists (Some e), w1, evs. by split_and!. }
  destruct (String.eqb name "none").
  { eexists _, w1, evs. by split_and!. }
  unfold bind, go, ret. eexists None, _, evs. split_and!; [done..|].
  intros _. cbn [spawned]. split; [by rewrite Hsp|].
  apply Hmon. done.
Qed.

End Monitoring.

(* --------------------------------------------------------------------- *)
(** *** On the board *)
(* --------------------------------------------------------------------- *)

Lemma X10_on_board :
  (∃ r w' evs,
     runs (Sysfs.SetDirection (D := example_directions) (Some (handle 7)) 1)
          (boot board) r evs w'
     ∧ line_written (attribute (handle 7) "direction")
                    (direction_word (D := example_directions) 1) r evs)
  ∧ (∃ r w' evs,
       runs (SetActiveLow (Some (handle 7)) true) (boot board) r evs w'
       ∧ line_written (attribute (handle 7) "active_low") (active_low_word true) r evs)
  ∧ (∃ r w' evs,
       runs (SetEdge (Some (handle 7)) RISING) (boot board) r evs w'
       ∧ line_written (attribute (handle 7) "edge") "rising" r evs).
Proof.
  apply (X10_setters_report_open_failure_only (D := example_directions)
           (handle 7) 1 true RISING "rising" (boot board)).
  reflexivity.
Defined.

Lemma X11_on_board :
  ∃ r w' evs,
    runs (SetEdge (Some (handle 7)) 7) (boot board) r evs w'
    ∧ writes evs = []
    ∧ closes evs = opens evs
    ∧ ((∃ e, r = Some e ∧ opens evs = [])
       ∨ (r = Some (ErrorsNew "Edge value invalid") ∧ length (opens evs) = 1%nat)).
Proof.
  apply (X11_SetEdge_refuses_other_modes (handle 7) 7 (boot board)).
  reflexivity.
Defined.

Lemma X15_on_board :
  (∃ r w' evs,
     runs (SetEdge (Some (handle 7)) RISING) (boot board) r evs w'
     ∧ (r = None → writes evs = [(attribute (handle 7) "edge", "rising" +:+ newline)]))
  ∧ (∃ r w' evs,
       runs (GetEdge (Some (handle 7))) (boot board) r evs w'
       ∧ (reads evs = [("rising" +:+ newline, None)] → r = ("rising", None))).
Proof.
  apply (X15_edge_round_trip (handle 7) RISING "rising" (boot board) (boot board)).
  reflexivity.
Defined.

Lemma X16_on_board :
  ∃ r w' evs,
    SetEdgeCallback (Some (handle 7)) (Some (Chan 0%nat)) 100 (boot board) = Ret r w'
    ∧ calls w' = (calls (boot board) ++ evs)%list
    ∧ (reads evs = [("rising" +:+ newline, None)] →
       r = None
       ∧ spawned w'
         = (spawned (boot board) ++ [mkTask (handle 7) (Some (Chan 0%nat)) 100])%list).
Proof.
  apply (X16_SetEdge_arms_SetEdgeCallback
           (handle 7) (Some (Chan 0%nat)) 100 RISING "rising" (boot board)).
  reflexivity.
Defined.

Lemma X17_on_board :
  let f := mkFile "/sys/class/gpio/gpio7/value" 3 in
  let line := "1" +:+ newline in
  (∃ r w' wa,
     runs (SetState (Some (handle 7)) true) (boot board) r [Event (Write f line) wa] w'
     ∧ r = snd wa
     ∧ (wa, kernel w') = sys (Write f line) (snd (sys_truncate f 0 (kernel (boot board))))
     ∧ SetStateNow (Some (handle 7)) true (boot board) = Ret r w')
  ∧ (∃ r w' evs,
       runs (GetState (Some (handle 7))) (boot board) r evs w'
       ∧ (reads evs = [(line, None)] → r = (true, None))).
Proof.
  apply (X17_value_round_trip (handle 7) (mkFile "/sys/class/gpio/gpio7/value" 3) true
           (boot board) (boot board)).
  reflexivity.
Defined.

Lemma X18_on_board :
  let f := mkFile "/sys/class/gpio/gpio7/value" 3 in
  ∃ r w' sa ra,
    runs (GetState (Some (handle 7))) (boot board) r
         [Event (Seek f 0 0) sa; Event (Read f 16) ra] w'
    ∧ (is_Some (snd r) ↔ read_fails ra)
    ∧ (fst r = true ↔ ¬ read_fails ra ∧ String.get 0 (fst ra) = Some "1"%char).
Proof.
  apply (X18_GetState_verdict (handle 7) (mkFile "/sys/class/gpio/gpio7/value" 3)
           (boot board)).
  reflexivity.
Defined.

Lemma X21_on_board :
  let f := mkFile "/sys/class/gpio/gpio7/value" 3 in
  ∃ r w' evs,
    runs (ReOpen (Some (handle 7))) (boot board_without_7) r evs w'
    ∧ ((∃ fdn e,
          evs = [Event (OpenFile (Name f) [O_RDWR; O_SYNC] perm_0666) (fdn, Some e)]
          ∧ r = (Some (mkSysfsGPIO 7 None), Some e)
          ∧ GetState (fst r) w' = Panicked "gpio.fd == nil" w')
       ∨ (∃ fdn ca,
            evs = [Event (OpenFile (Name f) [O_RDWR; O_SYNC] perm_0666) (fdn, None);
                   Event (CloseFile f) ca]
            ∧ r = (Some (mkSysfsGPIO 7 (Some (mkFile (Name f) fdn))), None))).
Proof.
  apply (X21_ReOpen_failure_loses_the_file
           (handle 7) (mkFile "/sys/class/gpio/gpio7/value" 3) (boot board_without_7)).
  reflexivity.
Defined.

Lemma X23_on_board :
  ∃ w', monitor 1 (handle 7) (Some (Chan 0%nat)) 100 (boot_closed board)
        = Panicked "close of closed channel" w'
        ∧ streams w' = streams (boot_closed board).
Proof.
  apply (X23_monitor_on_closed_channel_panics
           (handle 7) (mkFile "/sys/class/gpio/gpio7/value" 3) 0%nat 100 0%nat
           (boot_closed board) (mkStream [] true)); reflexivity.
Defined.

Lemma X24_on_board :
  ∃ w', streams w' = streams (boot board)
        ∧ (monitor 2 (handle 7) (Some NilChan) 100 (boot board) = Pending w'
           ∨ monitor 2 (handle 7) (Some NilChan) 100 (boot board)
             = Panicked "close of nil channel" w').
Proof.
  apply (X24_monitor_on_nil_channel_never_returns
           (handle 7) (mkFile "/sys/class/gpio/gpio7/value" 3) 100 2%nat (boot board)).
  reflexivity.
Defined.

Lemma X25_on_board :
  ∃ r w' evs,
    SetEdgeCallback (Some (bare_handle 7)) (Some (Chan 0%nat)) 100 (boot board) = Ret r w'
    ∧ calls w' = (calls (boot board) ++ evs)%list
    ∧ (r = None →
       spawned w'
       = (spawned (boot board) ++ [mkTask (bare_handle 7) (Some (Chan 0%nat)) 100])%list
       ∧ ∃ w'', monitor 1 (bare_handle 7) (Some (Chan 0%nat)) 100 w'
                = Panicked "gpio.fd == nil" w''
                ∧ calls w'' = calls w'
                ∧ streams w'' !! 0%nat = Some (mkStream [] true)).
Proof.
  apply (X25_SetEdgeCallback_without_value_file
           (bare_handle 7) 0%nat 100 0%nat (boot board) (mkStream [] false));
    reflexivity.
Defined.

End SysfsMore.
